(** * Planar frame member ("bar"): a shallow embedding of [Lab 2/bar.py]

    The Python module is embedded as state-passing code over an object
    store.  A [Bar] instance is its attribute dictionary; [Node] objects live
    in a heap and are held by reference, so that two bars (or a bar and the
    solver) observe the same node.  Exceptions are values; as in Python, a
    raised exception does not undo the assignments made before it.

    Python floats (numpy float64) are idealised as real numbers: rounding,
    infinities and NaN are outside the model, and division is the total
    division of [R] (numpy divides by zero without raising). *)

From Stdlib Require Import Reals Lra ZArith List.
From stdpp Require Import gmap strings list fin_maps functions.

Open Scope R_scope.
Open Scope string_scope.

Set Warnings "-register-all".

(** ** Values, exceptions, objects *)

Definition loc := nat.

Inductive exn : Type :=
| AttributeError (attr : string)
| TypeError (msg : string)
| ValueError (msg : string)
| IndexError.

(** Dynamically typed values that the module stores in attributes, passes as
    arguments and returns. *)
Inductive value : Type :=
| VNum (x : R)
| VNode (n : loc)
| VArray (a : list R)
| VMatrix (m : list (list R))
| VFun (f : R -> R)
| VList (l : list value).

(** Modelled from the spec: the [Node] class of [node.py], which is imported
    by [bar.py] but is not part of the sources.  The fields are those of the
    node collaborator interface (position, local and global force pairs,
    moment, two fixity flags); [position] is a numpy array of two floats. *)
Record Node : Type := mkNode {
  position : R * R;
  local_forces : R * R;
  global_forces : R * R;
  momentum : R;
  fixed_in_x : bool;
  fixed_in_y : bool
}.

(** Modelled from the spec: the constructor [Node(x, y, fx, fy, fixed_in_x,
    fixed_in_y)] of [node.py], called by [discretizateBar] with keyword
    arguments; the applied force pair is stored as the global force pair and
    the node starts with no local force and no moment. *)
Definition Node_new (x y fx fy : R) (fix_x fix_y : bool) : Node :=
  {| position := (x, y); local_forces := (0, 0); global_forces := (fx, fy);
     momentum := 0; fixed_in_x := fix_x; fixed_in_y := fix_y |}.

Record state : Type := mkState {
  nodes : loc -> Node;           (* the heap of Node objects *)
  fresh : loc;                   (* next unused reference *)
  attrs : gmap string value      (* __dict__ of the object bound to self *)
}.

Definition with_attrs (d : gmap string value) (st : state) : state :=
  {| nodes := nodes st; fresh := fresh st; attrs := d |}.

(** ** The exception-and-state monad *)

Definition M (A : Type) : Type := state -> (exn + A) * state.

Definition ret {A} (a : A) : M A := fun st => (inr a, st).

Definition raise {A} (e : exn) : M A := fun st => (inl e, st).

Definition bind {A B} (m : M A) (k : A -> M B) : M B := fun st =>
  match m st with
  | (inl e, st') => (inl e, st')
  | (inr a, st') => k a st'
  end.

Declare Scope py_scope.
Delimit Scope py_scope with py.
Notation "x <- c1 ;; c2" := (bind c1 (fun x => c2))
  (at level 100, c1 at next level, right associativity) : py_scope.
Notation "c1 ;; c2" := (bind c1 (fun _ => c2))
  (at level 100, right associativity) : py_scope.
Open Scope py_scope.

Definition getattr (name : string) : M value := fun st =>
  match attrs st !! name with
  | Some v => (inr v, st)
  | None => (inl (AttributeError name), st)
  end.

Definition setattr (name : string) (v : value) : M unit := fun st =>
  (inr tt, with_attrs (<[name := v]> (attrs st)) st).

Definition deref (n : loc) : M Node := fun st => (inr (nodes st n), st).

(** Run-time type tests: an operation applied to a value of the wrong kind
    raises [TypeError]. *)
Definition as_num (v : value) : M R :=
  match v with VNum x => ret x | _ => raise (TypeError "unsupported operand") end.

Definition as_node (v : value) : M Node :=
  match v with VNode n => deref n | _ => raise (AttributeError "position") end.

Definition as_array (v : value) : M (list R) :=
  match v with VArray a => ret a | _ => raise (TypeError "not subscriptable") end.

Definition as_matrix (v : value) : M (list (list R)) :=
  match v with VMatrix m => ret m | _ => raise (TypeError "unsupported operand") end.

Definition call (v : value) (x : R) : M R :=
  match v with VFun f => ret (f x) | _ => raise (TypeError "object is not callable") end.

Definition get_num (name : string) : M R := v <- getattr name ;; as_num v.
Definition get_node (name : string) : M Node := v <- getattr name ;; as_node v.
Definition get_matrix (name : string) : M (list (list R)) := v <- getattr name ;; as_matrix v.

(** ** numpy on small arrays *)

Definition dot (u v : list R) : R :=
  fold_right Rplus 0 (zip_with Rmult u v).

Definition ncols (m : list (list R)) : nat := length (hd [] m).

Definition transpose (m : list (list R)) : list (list R) :=
  map (fun j => map (fun row => nth j row 0) m) (seq 0 (ncols m)).

Definition scale (k : R) (m : list (list R)) : list (list R) :=
  map (map (Rmult k)) m.

Definition vadd (u v : list R) : list R := zip_with Rplus u v.
Definition madd (a b : list (list R)) : list (list R) := zip_with vadd a b.

(** [norm] of the difference of two positions: [np.linalg.norm(p - q)]. *)
Definition norm2 (p q : R * R) : R :=
  sqrt ((fst p - fst q) ^ 2 + (snd p - snd q) ^ 2).

(** ** Module-level functions *)

(** [rotateTensor]: [rotation_matrix @ tensor]; the tensor is a 1-D array or a
    2-D array, and [@] raises [ValueError] when the inner dimensions differ. *)
Definition rotateTensor (rotation_matrix : list (list R)) (tensor : value) : M value :=
  match tensor with
  | VArray v =>
      if bool_decide (ncols rotation_matrix = length v)
      then ret (VArray (map (fun row => dot row v) rotation_matrix))
      else raise (ValueError "matmul: dimension mismatch")
  | VMatrix t =>
      if bool_decide (ncols rotation_matrix = length t)
      then ret (VMatrix (map (fun row => map (dot row) (transpose t)) rotation_matrix))
      else raise (ValueError "matmul: dimension mismatch")
  | _ => raise (TypeError "unsupported operand")
  end.

(** [getLinearLoad]: the length is computed once, at call time, and the
    returned closure divides by it. *)
Definition getLinearLoad (start_value final_value : R) (left_node right_node : Node)
  : R -> R :=
  let L := norm2 (position left_node) (position right_node) in
  fun x => start_value + (final_value - start_value) * (x / L).

(** Elementwise [+] of numpy (no broadcasting is needed by this module). *)
Definition np_add (a b : value) : M value :=
  match a, b with
  | VNum x, VNum y => ret (VNum (x + y))
  | VArray u, VArray v => ret (VArray (vadd u v))
  | VMatrix u, VMatrix v => ret (VMatrix (madd u v))
  | _, _ => raise (TypeError "unsupported operand")
  end.

(** [np.concatenate(a, b)]: the second positional parameter of
    [np.concatenate] is [axis], which must be an integer; an array or a float
    in that position raises [TypeError]. *)
Definition np_concatenate (arrays axis : value) : M value :=
  match axis with
  | VNum _ => raise (TypeError "object cannot be interpreted as an integer")
  | _ => raise (TypeError "only integer scalar arrays can be converted to a scalar index")
  end.

(** [obj.name[i] = v] on a 1-D array held in an attribute. *)
Definition setitem (name : string) (i : nat) (v : R) : M unit :=
  fv <- getattr name ;;
  a <- as_array fv ;;
  if bool_decide (i < length a)%nat
  then setattr name (VArray (<[i := v]> a))
  else raise IndexError.

(** ** class Bar *)

Module Bar.

Definition getBarLength : M R := get_num "L".

Definition calculateBarLength : M R :=
  l <- get_node "left_node" ;;
  r <- get_node "right_node" ;;
  ret (norm2 (position l) (position r)).

Definition getBarAngle : M R :=
  r <- get_node "right_node" ;;
  l <- get_node "left_node" ;;
  let dx := fst (position r) - fst (position l) in
  r' <- get_node "right_node" ;;
  l' <- get_node "left_node" ;;
  let dy := snd (position r') - snd (position l') in
  if Req_dec_T dx 0 then
    if Rgt_dec dy 0 then ret (PI / 2) else ret (- PI / 2)
  else ret (atan (dy / dx)).

Definition calculateRotationMatrix : M (list (list R) * list (list R)) :=
  a <- get_num "angle" ;;
  let c := cos a in
  a' <- get_num "angle" ;;
  let s := sin a' in
  let R_6 := [ [c; - s; 0; 0; 0; 0];
               [s;   c; 0; 0; 0; 0];
               [0;   0; 1; 0; 0; 0];
               [0;   0; 0; c; - s; 0];
               [0;   0; 0; s;   c; 0];
               [0;   0; 0; 0;   0; 1] ] in
  let R_3 := [ [c; - s; 0];
               [s;   c; 0];
               [0;   0; 1] ] in
  ret (R_6, R_3).

Definition node_field (name : string) (f : Node -> R) : M R :=
  n <- get_node name ;; ret (f n).

Definition getNodesGlobalForces : M (value * value) :=
  l0 <- node_field "left_node" (fun n => fst (local_forces n)) ;;
  l1 <- node_field "left_node" (fun n => snd (local_forces n)) ;;
  l2 <- node_field "left_node" momentum ;;
  let left_node_forces_local := VMatrix [ [l0]; [l1]; [l2] ] in
  g0 <- node_field "left_node" (fun n => fst (global_forces n)) ;;
  g1 <- node_field "left_node" (fun n => snd (global_forces n)) ;;
  let left_node_forces_global := VMatrix [ [g0]; [g1]; [0] ] in
  r0 <- node_field "right_node" (fun n => fst (local_forces n)) ;;
  r1 <- node_field "right_node" (fun n => snd (local_forces n)) ;;
  r2 <- node_field "right_node" momentum ;;
  let right_node_forces_local := VMatrix [ [r0]; [r1]; [r2] ] in
  h0 <- node_field "right_node" (fun n => fst (global_forces n)) ;;
  h1 <- node_field "right_node" (fun n => snd (global_forces n)) ;;
  let right_node_forces_global := VMatrix [ [h0]; [h1]; [0] ] in
  R3 <- get_matrix "rotation_matrix_3x3" ;;
  lrot <- rotateTensor R3 left_node_forces_local ;;
  left_node_forces_total_global <- np_add lrot left_node_forces_global ;;
  R3' <- get_matrix "rotation_matrix_3x3" ;;
  rrot <- rotateTensor R3' right_node_forces_local ;;
  right_node_forces_total_global <- np_add rrot right_node_forces_global ;;
  ret (left_node_forces_total_global, right_node_forces_total_global).

Definition calculateStiffnessMatrix : M (list (list R)) :=
  a <- get_num "angle" ;;
  let c := cos a in
  a' <- get_num "angle" ;;
  let s := sin a' in
  A <- get_num "A" ;;
  L1 <- get_num "L" ;;
  I <- get_num "I" ;;
  let mu := A * L1 ^ 2 / 2 * I in
  E <- get_num "E" ;;
  I' <- get_num "I" ;;
  L2 <- get_num "L" ;;
  let k := 2 * E * I' / L2 ^ 3 in
  L <- get_num "L" ;;
  let K := scale k
    [ [mu * c ^ 2 + 6 * s ^ 2; (mu - 6) * c * s; -3 * L * s; - mu * c ^ 2 - 6 * s ^ 2; - (mu - 6) * c * s; -3 * L * s];
      [(mu - 6) * c * s; mu * s ^ 2 + 6 * c ^ 2; 3 * L * c; - (mu - 6) * c * s; - mu * s ^ 2 - 6 * c ^ 2; 3 * L * c];
      [-3 * L * s; 3 * L * c; 2 * L ^ 2; 3 * L * s; -3 * L * c; L ^ 2];
      [- mu * c ^ 2 - 6 * s ^ 2; - (mu - 6) * c * s; 3 * L * s; mu * c ^ 2 + 6 * s ^ 2; (mu - 6) * c * s; 3 * L * s];
      [- (mu - 6) * c * s; - mu * s ^ 2 - 6 * c ^ 2; -3 * L * c; (mu - 6) * c * s; mu * s ^ 2 + 6 * c ^ 2; -3 * L * c];
      [-3 * L * s; 3 * L * c; L ^ 2; 3 * L * s; -3 * L * c; 2 * L ^ 2] ] in
  ret K.

Definition getStiffnessMatrix : M value := getattr "stiffness_matrix".

Definition setBarNormalAndStress : M unit :=
  L <- calculateBarLength ;;
  setattr "L" (VNum L) ;;
  E <- get_num "E" ;;
  L' <- get_num "L" ;;
  Li <- get_num "Li" ;;
  Li' <- get_num "Li" ;;
  let sigma := E * (L' - Li) / Li' in
  setattr "sigma" (VNum sigma) ;;
  A <- get_num "A" ;;
  setattr "N" (VNum (sigma * A)).

Definition getBarNormal : M value := getattr "N".

Definition getBarStress : M value := getattr "sigma".

Section Quadrature.

(** The value that the quadrature routine behind [scipy.integrate.quad]
    assigns to an integrand on an interval. *)
Variable integrate : (R -> R) -> R -> R -> R.

(** [quad(f, a, b)[0]].  QUADPACK evaluates the integrand first at the centre
    of the interval (also when [a = b]); an exception raised by the integrand
    propagates out of [quad].  The integrand reads the object but does not
    write it. *)
Definition quad (f : R -> M R) (a b : R) : M R := fun st =>
  match f ((a + b) / 2) st with
  | (inl e, st') => (inl e, st')
  | (inr _, _) =>
      (inr (integrate (fun x => match fst (f x st) with inr y => y | inl _ => 0 end) a b), st)
  end.

Definition calculateForceVector : M value :=
  let force_vector := [0; 0; 0; 0; 0; 0] in
  a <- get_num "angle" ;;
  let c := cos a in
  a' <- get_num "angle" ;;
  let s := sin a' in
  let phi_1 := fun x => L1 <- get_num "L" ;; L2 <- get_num "L" ;;
                 ret (2 * x ^ 3 / L1 ^ 3 - 3 * x ^ 2 / L2 ^ 2 + 1) in
  let phi_2 := fun x => L1 <- get_num "L" ;; L2 <- get_num "L" ;;
                 ret (x - 2 * x ^ 2 / L1 + x ^ 3 / L2 ^ 2) in
  let phi_3 := fun x => L1 <- get_num "L" ;; L2 <- get_num "L" ;;
                 ret (-2 * x ^ 3 / L1 ^ 3 + 3 * x ^ 2 / L2 ^ 2) in
  let phi_4 := fun x => L1 <- get_num "L" ;; L2 <- get_num "L" ;;
                 ret (- x ^ 3 / L1 ^ 2 + x ^ 2 / L2) in
  let phi_5 := fun x => L1 <- get_num "L" ;; ret (1 - x / L1) in
  let phi_6 := fun x => L1 <- get_num "L" ;; ret (x / L1) in
  let decomposed_q_x := fun x =>
    gx <- getattr "global_q_x" ;; u <- call gx x ;;
    gy <- getattr "global_q_y" ;; v <- call gy x ;;
    ret (u * c - v * s) in
  let decomposed_q_y := fun x =>
    gx <- getattr "global_q_x" ;; u <- call gx x ;;
    gy <- getattr "global_q_y" ;; v <- call gy x ;;
    ret (u * s + v * c) in
  let total_q_x := fun x =>
    lx <- getattr "local_q_x" ;; u <- call lx x ;;
    v <- decomposed_q_x x ;; ret (u + v) in
  let total_q_y := fun x =>
    ly <- getattr "local_q_y" ;; u <- call ly x ;;
    v <- decomposed_q_y x ;; ret (u + v) in
  let against (q phi : R -> M R) := fun x => u <- q x ;; v <- phi x ;; ret (u * v) in
  L <- get_num "L" ;; f0 <- quad (against total_q_x phi_5) 0 L ;;
  setitem "force_vector" 0 f0 ;;
  L <- get_num "L" ;; f1 <- quad (against total_q_y phi_1) 0 L ;;
  setitem "force_vector" 1 f1 ;;
  L <- get_num "L" ;; f2 <- quad (against total_q_y phi_2) 0 L ;;
  setitem "force_vector" 2 f2 ;;
  L <- get_num "L" ;; f3 <- quad (against total_q_x phi_6) 0 L ;;
  setitem "force_vector" 3 f3 ;;
  L <- get_num "L" ;; f4 <- quad (against total_q_y phi_3) 0 L ;;
  setitem "force_vector" 4 f4 ;;
  L <- get_num "L" ;; f5 <- quad (against total_q_y phi_4) 0 L ;;
  setitem "force_vector" 5 f5 ;;
  R6 <- get_matrix "rotation_matrix_6x6" ;;
  rotated_force_vector <- rotateTensor R6 (VArray force_vector) ;;
  forces <- getNodesGlobalForces ;;
  let left_node_forces_total_global := fst forces in
  let right_node_forces_total_global := snd forces in
  concatenated_node_forces <-
    np_concatenate left_node_forces_total_global right_node_forces_total_global ;;
  global_force_vector <- np_add rotated_force_vector concatenated_node_forces ;;
  ret global_force_vector.

(** The assignments of [__init__] that precede the load vector
    (source lines 100 to 111). *)
Definition init_fields (left_node right_node E A I global_q_x local_q_x global_q_y local_q_y : value)
  : M unit :=
  setattr "left_node" left_node ;;
  setattr "right_node" right_node ;;
  setattr "E" E ;;
  setattr "A" A ;;
  setattr "I" I ;;
  L <- calculateBarLength ;; setattr "L" (VNum L) ;;
  Li <- calculateBarLength ;; setattr "Li" (VNum Li) ;;
  angle <- getBarAngle ;; setattr "angle" (VNum angle) ;;
  K <- calculateStiffnessMatrix ;; setattr "stiffness_matrix" (VMatrix K) ;;
  setattr "global_loads" (VList [global_q_x; global_q_y]) ;;
  setattr "local_loads" (VList [local_q_x; local_q_y]) ;;
  rot <- calculateRotationMatrix ;;
  setattr "rotation_matrix_6x6" (VMatrix (fst rot)) ;;
  setattr "rotation_matrix_3x3" (VMatrix (snd rot)).

Definition __init__ (left_node right_node E A I global_q_x local_q_x global_q_y local_q_y : value)
  : M unit :=
  init_fields left_node right_node E A I global_q_x local_q_x global_q_y local_q_y ;;
  fv <- calculateForceVector ;; setattr "force_vector" fv ;;
  setattr "N" (VNum 0) ;;
  setattr "sigma" (VNum 0).

End Quadrature.

End Bar.

(** ** Calling the class and the discretizer *)

(** The methods of [Bar] that can be called on a constructed object. *)
Inductive method : Type :=
| GetBarLength | CalculateBarLength | GetBarAngle | CalculateRotationMatrix
| GetNodesGlobalForces | CalculateForceVector | CalculateStiffnessMatrix
| GetStiffnessMatrix | SetBarNormalAndStress | GetBarNormal | GetBarStress.

Definition discard {A} (m : M A) : M unit := _ <- m ;; ret tt.

Definition invoke (integrate : (R -> R) -> R -> R -> R) (m : method) : M unit :=
  match m with
  | GetBarLength => discard Bar.getBarLength
  | CalculateBarLength => discard Bar.calculateBarLength
  | GetBarAngle => discard Bar.getBarAngle
  | CalculateRotationMatrix => discard Bar.calculateRotationMatrix
  | GetNodesGlobalForces => discard Bar.getNodesGlobalForces
  | CalculateForceVector => discard (Bar.calculateForceVector integrate)
  | CalculateStiffnessMatrix => discard Bar.calculateStiffnessMatrix
  | GetStiffnessMatrix => discard Bar.getStiffnessMatrix
  | SetBarNormalAndStress => Bar.setBarNormalAndStress
  | GetBarNormal => discard Bar.getBarNormal
  | GetBarStress => discard Bar.getBarStress
  end.

(** Parameters of [Bar.__init__] after [self]; none has a default. *)
Definition Bar_params : list string :=
  ["left_node"; "right_node"; "E"; "A"; "I";
   "global_q_x"; "local_q_x"; "global_q_y"; "local_q_y"].

(** Binding of a call made with keyword arguments only to parameters without
    defaults: a keyword that names no parameter, or a parameter left without
    argument, raises [TypeError]. *)
Definition bind_keywords (params : list string) (kwargs : list (string * value))
  : exn + gmap string value :=
  if negb (forallb (fun kv => bool_decide (fst kv ∈ params)) kwargs)
  then inl (TypeError "got an unexpected keyword argument")
  else if negb (forallb (fun p => bool_decide (p ∈ map fst kwargs)) params)
  then inl (TypeError "missing required positional arguments")
  else inr (list_to_map kwargs).

Section Discretizer.

Variable integrate : (R -> R) -> R -> R -> R.

(** [Bar(...)] with keyword arguments: a new object with an empty dictionary is initialised by
    [__init__]; the caller's own [self] is not affected. *)
Definition Bar_new (kwargs : list (string * value)) : M (gmap string value) := fun st =>
  match bind_keywords Bar_params kwargs with
  | inl e => (inl e, st)
  | inr args =>
      let arg name := default (VNum 0) (args !! name) in
      let res := Bar.__init__ integrate
                   (arg "left_node") (arg "right_node") (arg "E") (arg "A") (arg "I")
                   (arg "global_q_x") (arg "local_q_x") (arg "global_q_y") (arg "local_q_y")
                   (with_attrs ∅ st) in
      (match fst res with inl e => inl e | inr _ => inr (attrs (snd res)) end,
       with_attrs (attrs st) (snd res))
  end.

(** [Node(...)]: the new object gets the next unused reference. *)
Definition alloc (n : Node) : M loc := fun st =>
  (inr (fresh st),
   {| nodes := <[fresh st := n]> (nodes st); fresh := S (fresh st); attrs := attrs st |}).

(** [l[i]] on a Python list: negative indices count from the end. *)
Definition py_index {A} (l : list A) (i : Z) : M A :=
  let j := if bool_decide (i < 0)%Z then (i + Z.of_nat (length l))%Z else i in
  if bool_decide (0 <= j)%Z then
    match l !! Z.to_nat j with
    | Some a => ret a
    | None => raise IndexError
    end
  else raise IndexError.

(** A [for] loop over a list that updates a local variable. *)
Fixpoint for_each {A B} (l : list A) (body : B -> A -> M B) (acc : B) : M B :=
  match l with
  | [] => ret acc
  | i :: l' => acc' <- body acc i ;; for_each l' body acc'
  end.

(** [range(a, b)] *)
Definition range (a b : Z) : list Z := seqZ a (b - a).

(** [discretizateBar]: [getPosition()] of [node.py] is read as the node's
    [position]; [n_elements] is a Python integer of either sign. *)
Definition discretizateBar (left_node right_node : loc) (q E A : value) (n_elements : Z)
  : M (list (gmap string value) * list loc) :=
  l <- deref left_node ;;
  r <- deref right_node ;;
  let left_node_position := position l in
  let right_node_position := position r in
  let left_node_x := fst left_node_position in
  let left_node_y := snd left_node_position in
  let right_node_x := fst right_node_position in
  let right_node_y := snd right_node_position in
  let dx := (right_node_x - left_node_x) / IZR n_elements in
  let dy := (right_node_y - left_node_y) / IZR n_elements in
  nodes <- for_each (range 1 n_elements) (fun nodes i =>
    node <- alloc (Node_new (left_node_x + IZR i * dx) (left_node_y + IZR i * dy)
                            0 0 false false) ;;
    ret (nodes ++ [node])%list) [] ;;
  bars <- for_each (range 0 n_elements) (fun bars i =>
    node_i <- (if bool_decide (i = 0)%Z then ret left_node else py_index nodes (i - 1)) ;;
    node_j <- (if bool_decide (i = n_elements - 1)%Z then ret right_node else py_index nodes i) ;;
    bar <- Bar_new [("left_node", VNode node_i); ("right_node", VNode node_j);
                    ("q", q); ("E", E); ("A", A)] ;;
    ret (bars ++ [bar])%list) [] ;;
  ret (bars, nodes).

End Discretizer.

(** ** Specification-side definitions *)

(** The two-argument arctangent, the angle of the vector [(x, y)] in
    [(-PI, PI]], written from the specification. *)
Definition atan2 (y x : R) : R :=
  if Rlt_dec 0 x then atan (y / x)
  else if Rlt_dec x 0 then
    if Rle_dec 0 y then atan (y / x) + PI else atan (y / x) - PI
  else if Rlt_dec 0 y then PI / 2
  else if Rlt_dec y 0 then - PI / 2
  else 0.

(** The frame-element matrix as a function of its parameters: the shape
    shared by the source and by the specification. *)
Definition frame_matrix (mu k L c s : R) : list (list R) :=
  scale k
    [ [mu * c ^ 2 + 6 * s ^ 2; (mu - 6) * c * s; -3 * L * s; - mu * c ^ 2 - 6 * s ^ 2; - (mu - 6) * c * s; -3 * L * s];
      [(mu - 6) * c * s; mu * s ^ 2 + 6 * c ^ 2; 3 * L * c; - (mu - 6) * c * s; - mu * s ^ 2 - 6 * c ^ 2; 3 * L * c];
      [-3 * L * s; 3 * L * c; 2 * L ^ 2; 3 * L * s; -3 * L * c; L ^ 2];
      [- mu * c ^ 2 - 6 * s ^ 2; - (mu - 6) * c * s; 3 * L * s; mu * c ^ 2 + 6 * s ^ 2; (mu - 6) * c * s; 3 * L * s];
      [- (mu - 6) * c * s; - mu * s ^ 2 - 6 * c ^ 2; -3 * L * c; (mu - 6) * c * s; mu * s ^ 2 + 6 * c ^ 2; -3 * L * c];
      [-3 * L * s; 3 * L * c; L ^ 2; 3 * L * s; -3 * L * c; 2 * L ^ 2] ].

(** The closed form of the specification: [mu = A L^2 / (2 I)] and
    [k = 2 E I / L^3]. *)
Definition spec_stiffness (E A I L angle : R) : list (list R) :=
  frame_matrix (A * L ^ 2 / (2 * I)) (2 * E * I / L ^ 3) L (cos angle) (sin angle).

(** ** What the methods compute, as functions of the data they read *)

Definition bar_length (st : state) (l r : loc) : R :=
  norm2 (position (nodes st l)) (position (nodes st r)).

Definition bar_angle (st : state) (l r : loc) : R :=
  let dx := fst (position (nodes st r)) - fst (position (nodes st l)) in
  let dy := snd (position (nodes st r)) - snd (position (nodes st l)) in
  if Req_dec_T dx 0 then
    if Rgt_dec dy 0 then PI / 2 else - PI / 2
  else atan (dy / dx).

Definition bar_stiffness (E A I L angle : R) : list (list R) :=
  frame_matrix (A * L ^ 2 / 2 * I) (2 * E * I / L ^ 3) L (cos angle) (sin angle).

Definition rotation_6x6 (angle : R) : list (list R) :=
  let c := cos angle in
  let s := sin angle in
  [ [c; - s; 0; 0; 0; 0];
    [s;   c; 0; 0; 0; 0];
    [0;   0; 1; 0; 0; 0];
    [0;   0; 0; c; - s; 0];
    [0;   0; 0; s;   c; 0];
    [0;   0; 0; 0;   0; 1] ].

Definition rotation_3x3 (angle : R) : list (list R) :=
  let c := cos angle in
  let s := sin angle in
  [ [c; - s; 0]; [s; c; 0]; [0; 0; 1] ].

(** The dictionary of a [Bar] after the assignments of [init_fields],
    starting from the dictionary [d]. *)
Definition init_dict (st : state) (d : gmap string value) (l r : loc) (E A I : R)
    (global_q_x local_q_x global_q_y local_q_y : value) : gmap string value :=
  let L := bar_length st l r in
  let angle := bar_angle st l r in
  <["rotation_matrix_3x3" := VMatrix (rotation_3x3 angle)]>
  (<["rotation_matrix_6x6" := VMatrix (rotation_6x6 angle)]>
  (<["local_loads" := VList [local_q_x; local_q_y]]>
  (<["global_loads" := VList [global_q_x; global_q_y]]>
  (<["stiffness_matrix" := VMatrix (bar_stiffness E A I L angle)]>
  (<["angle" := VNum angle]>
  (<["Li" := VNum L]>
  (<["L" := VNum L]>
  (<["I" := VNum I]>
  (<["A" := VNum A]>
  (<["E" := VNum E]>
  (<["right_node" := VNode r]>
  (<["left_node" := VNode l]> d)))))))))))).

(** A computation that only reads: it returns the state it was given. *)
Definition preserves {A} (m : M A) : Prop := forall st, snd (m st) = st.

(** The attributes that a method may assign after construction. *)
Definition mutable_attrs : list string := ["L"; "N"; "sigma"].

(** [st'] differs from [st] at most in the attributes [L], [N] and [sigma]
    of the object; the heap of nodes is the same. *)
Definition frame (st st' : state) : Prop :=
  nodes st' = nodes st /\ fresh st' = fresh st /\
  forall a : string, a ∉ mutable_attrs -> attrs st' !! a = attrs st !! a.

Definition frames {A} (m : M A) : Prop := forall st, frame st (snd (m st)).

(** ** Concrete inputs *)

(** A heap with a node at [p] under reference [0] and a node at [q] under
    every other reference, and no object bound to [self] yet. *)
Definition two_nodes (p q : R * R) : state :=
  {| nodes := fun n => match n with
                       | O => Node_new (fst p) (snd p) 0 0 false false
                       | S _ => Node_new (fst q) (snd q) 0 0 false false
                       end;
     fresh := 2%nat;
     attrs := ∅ |}.

(** A one-point quadrature rule, to run the code on concrete inputs. *)
Definition midpoint_rule (f : R -> R) (a b : R) : R := (b - a) * f ((a + b) / 2).

Definition zero_load : value := VFun (fun _ => 0).

(** The object left by the field assignments of the constructor for a bar
    from [p] to [q] with the given properties and no distributed load. *)
Definition bar_between (p q : R * R) (E A I : R) : state :=
  with_attrs
    (init_dict (two_nodes p q) ∅ 0%nat 1%nat E A I zero_load zero_load zero_load zero_load)
    (two_nodes p q).

(** Entry [K[i][j]] of a 2-D array. *)
Definition entry (K : list (list R)) (i j : nat) : R := nth j (nth i K []) 0.

(** ** Running the monad *)

(** ** Further vocabulary *)

(** The [n] by [n] identity array. *)
Definition identity (n : nat) : list (list R) :=
  map (fun i => map (fun j => if Nat.eqb i j then 1 else 0) (seq 0 n)) (seq 0 n).

(** The same object over another heap of nodes: what a bar sees after the
    solver has moved nodes. *)
Definition with_nodes (h : loc -> Node) (st : state) : state :=
  {| nodes := h; fresh := fresh st; attrs := attrs st |}.

(** A computation that raises on every state. *)
Definition fails {A} (m : M A) : Prop :=
  forall st, exists (e : exn) (st' : state), m st = (inl e, st').

(** Equality of array literals, entry by entry. *)
Ltac entrywise tac :=
  repeat match goal with
         | |- @eq (list _) (_ :: _) (_ :: _) => apply (f_equal2 cons)
         | |- @eq (list _) [] [] => reflexivity
         | |- @eq R _ _ => tac
         end.

(** Membership of a literal name in [mutable_attrs]. *)
Ltac mutable_attr :=
  unfold mutable_attrs; rewrite ?not_elem_of_cons, ?elem_of_cons;
  first [ repeat split; solve [discriminate | apply not_elem_of_nil]
        | solve [auto 6] ].

(** Lookup in a dictionary built by a chain of assignments. *)
Ltac lookup_attr :=
  cbn [attrs with_attrs nodes fresh];
  repeat (rewrite lookup_insert_ne by (intros ?; discriminate));
  first [ apply lookup_insert_eq | apply lookup_empty | eassumption ].

(** An attribute of a [bar_between] object. *)
Ltac bar_attr := unfold bar_between, init_dict; lookup_attr.

Lemma run_setattr {B} (n : string) (v : value) (k : unit -> M B) (st : state) :
  bind (setattr n v) k st = k tt (with_attrs (<[n := v]> (attrs st)) st).
Proof. reflexivity. Qed.

Lemma run_getattr {B} (n : string) (v : value) (k : value -> M B) (st : state) :
  attrs st !! n = Some v -> bind (getattr n) k st = k v st.
Proof. intros H. unfold bind, getattr. now rewrite H. Qed.

Lemma run_getattr_None {B} (n : string) (k : value -> M B) (st : state) :
  attrs st !! n = None -> bind (getattr n) k st = (inl (AttributeError n), st).
Proof. intros H. unfold bind, getattr. now rewrite H. Qed.

Lemma run_get_num {B} (n : string) (x : R) (k : R -> M B) (st : state) :
  attrs st !! n = Some (VNum x) -> bind (get_num n) k st = k x st.
Proof. intros H. unfold bind, get_num, bind, getattr. now rewrite H. Qed.

Lemma run_get_node {B} (n : string) (l : loc) (k : Node -> M B) (st : state) :
  attrs st !! n = Some (VNode l) -> bind (get_node n) k st = k (nodes st l) st.
Proof. intros H. unfold bind, get_node, bind, getattr. now rewrite H. Qed.

Lemma run_get_matrix {B} (n : string) (m : list (list R)) (k : list (list R) -> M B) (st : state) :
  attrs st !! n = Some (VMatrix m) -> bind (get_matrix n) k st = k m st.
Proof. intros H. unfold bind, get_matrix, bind, getattr. now rewrite H. Qed.

Lemma run_ret {A B} (a : A) (k : A -> M B) (st : state) : bind (ret a) k st = k a st.
Proof. reflexivity. Qed.

Lemma run_bind_ok {A B} (m : M A) (k : A -> M B) (st st' : state) (a : A) :
  m st = (inr a, st') -> bind m k st = k a st'.
Proof. intros H. unfold bind. now rewrite H. Qed.

Lemma run_bind_err {A B} (m : M A) (k : A -> M B) (st st' : state) (e : exn) :
  m st = (inl e, st') -> bind m k st = (inl e, st').
Proof. intros H. unfold bind. now rewrite H. Qed.

Lemma getBarLength_run (st : state) (x : R) :
  attrs st !! "L" = Some (VNum x) -> Bar.getBarLength st = (inr x, st).
Proof. intros H. unfold Bar.getBarLength, get_num, bind, getattr. now rewrite H. Qed.

Lemma calculateBarLength_run (st : state) (l r : loc) :
  attrs st !! "left_node" = Some (VNode l) ->
  attrs st !! "right_node" = Some (VNode r) ->
  Bar.calculateBarLength st = (inr (bar_length st l r), st).
Proof.
  intros Hl Hr. unfold Bar.calculateBarLength.
  rewrite (run_get_node _ l) by assumption.
  rewrite (run_get_node _ r) by assumption.
  reflexivity.
Qed.

Lemma getBarAngle_run (st : state) (l r : loc) :
  attrs st !! "left_node" = Some (VNode l) ->
  attrs st !! "right_node" = Some (VNode r) ->
  Bar.getBarAngle st = (inr (bar_angle st l r), st).
Proof.
  intros Hl Hr. unfold Bar.getBarAngle, bar_angle.
  rewrite (run_get_node _ r) by assumption.
  rewrite (run_get_node _ l) by assumption.
  rewrite (run_get_node _ r) by assumption.
  rewrite (run_get_node _ l) by assumption.
  destruct (Req_dec_T _ 0); [destruct (Rgt_dec _ 0)|]; reflexivity.
Qed.

Lemma calculateStiffnessMatrix_run (st : state) (E A I L angle : R) :
  attrs st !! "angle" = Some (VNum angle) ->
  attrs st !! "A" = Some (VNum A) ->
  attrs st !! "L" = Some (VNum L) ->
  attrs st !! "I" = Some (VNum I) ->
  attrs st !! "E" = Some (VNum E) ->
  Bar.calculateStiffnessMatrix st = (inr (bar_stiffness E A I L angle), st).
Proof.
  intros Ha HA HL HI HE. unfold Bar.calculateStiffnessMatrix.
  rewrite (run_get_num _ angle) by assumption.
  rewrite (run_get_num _ angle) by assumption.
  rewrite (run_get_num _ A) by assumption.
  rewrite (run_get_num _ L) by assumption.
  rewrite (run_get_num _ I) by assumption.
  rewrite (run_get_num _ E) by assumption.
  rewrite (run_get_num _ I) by assumption.
  rewrite (run_get_num _ L) by assumption.
  rewrite (run_get_num _ L) by assumption.
  reflexivity.
Qed.

Lemma calculateRotationMatrix_run (st : state) (angle : R) :
  attrs st !! "angle" = Some (VNum angle) ->
  Bar.calculateRotationMatrix st = (inr (rotation_6x6 angle, rotation_3x3 angle), st).
Proof.
  intros Ha. unfold Bar.calculateRotationMatrix.
  rewrite (run_get_num _ angle) by assumption.
  rewrite (run_get_num _ angle) by assumption.
  reflexivity.
Qed.

Lemma init_fields_run (st : state) (l r : loc)
    (E A I : R) (gqx lqx gqy lqy : value) :
  Bar.init_fields (VNode l) (VNode r) (VNum E) (VNum A) (VNum I) gqx lqx gqy lqy st
  = (inr tt, with_attrs (init_dict st (attrs st) l r E A I gqx lqx gqy lqy) st).
Proof.
  unfold Bar.init_fields.
  rewrite !run_setattr.
  erewrite run_bind_ok by (apply (calculateBarLength_run _ l r); lookup_attr).
  rewrite run_setattr.
  erewrite run_bind_ok by (apply (calculateBarLength_run _ l r); lookup_attr).
  rewrite run_setattr.
  erewrite run_bind_ok by (apply (getBarAngle_run _ l r); lookup_attr).
  rewrite run_setattr.
  erewrite run_bind_ok by (apply (calculateStiffnessMatrix_run _ E A I); lookup_attr).
  rewrite !run_setattr.
  erewrite run_bind_ok by (apply calculateRotationMatrix_run; lookup_attr).
  rewrite !run_setattr.
  reflexivity.
Qed.

(** *** Read-only computations *)

Create HintDb readonly.

Lemma preserves_ret {A} (a : A) : preserves (ret a).
Proof. intros st. reflexivity. Qed.

Lemma preserves_raise {A} (e : exn) : preserves (@raise A e).
Proof. intros st. reflexivity. Qed.

Lemma preserves_bind {A B} (m : M A) (k : A -> M B) :
  preserves m -> (forall a, preserves (k a)) -> preserves (bind m k).
Proof.
  intros Hm Hk st. unfold bind. specialize (Hm st).
  destruct (m st) as [[e | a] st']; cbn in Hm; subst st'; [reflexivity | apply Hk].
Qed.

Lemma preserves_getattr (n : string) : preserves (getattr n).
Proof. intros st. unfold getattr. destruct (attrs st !! n); reflexivity. Qed.

Lemma preserves_deref (n : loc) : preserves (deref n).
Proof. intros st. reflexivity. Qed.

#[export] Hint Resolve preserves_ret preserves_raise preserves_bind preserves_getattr
  preserves_deref : readonly.

Lemma preserves_as_num (v : value) : preserves (as_num v).
Proof. destruct v; cbn; auto with readonly. Qed.

Lemma preserves_as_node (v : value) : preserves (as_node v).
Proof. destruct v; cbn; auto with readonly. Qed.

Lemma preserves_as_matrix (v : value) : preserves (as_matrix v).
Proof. destruct v; cbn; auto with readonly. Qed.

Lemma preserves_call (v : value) (x : R) : preserves (call v x).
Proof. destruct v; cbn; auto with readonly. Qed.

Lemma preserves_np_add (a b : value) : preserves (np_add a b).
Proof. destruct a, b; cbn; auto with readonly. Qed.

Lemma preserves_np_concatenate (a b : value) : preserves (np_concatenate a b).
Proof. destruct b; cbn; auto with readonly. Qed.

Lemma preserves_rotateTensor (m : list (list R)) (t : value) : preserves (rotateTensor m t).
Proof. destruct t; cbn; try case_bool_decide; auto with readonly. Qed.

#[export] Hint Resolve preserves_as_num preserves_as_node preserves_as_matrix preserves_call
  preserves_np_add preserves_np_concatenate preserves_rotateTensor : readonly.

Lemma preserves_get_num (n : string) : preserves (get_num n).
Proof. unfold get_num. auto with readonly. Qed.

Lemma preserves_get_node (n : string) : preserves (get_node n).
Proof. unfold get_node. auto with readonly. Qed.

Lemma preserves_get_matrix (n : string) : preserves (get_matrix n).
Proof. unfold get_matrix. auto with readonly. Qed.

#[export] Hint Resolve preserves_get_num preserves_get_node preserves_get_matrix : readonly.

Lemma preserves_discard {A} (m : M A) : preserves m -> preserves (discard m).
Proof. intros H. unfold discard. auto with readonly. Qed.

Lemma preserves_getBarLength : preserves Bar.getBarLength.
Proof. unfold Bar.getBarLength. auto with readonly. Qed.

Lemma preserves_calculateBarLength : preserves Bar.calculateBarLength.
Proof. unfold Bar.calculateBarLength. auto with readonly. Qed.

Lemma preserves_getBarAngle : preserves Bar.getBarAngle.
Proof.
  unfold Bar.getBarAngle.
  repeat (apply preserves_bind; [auto with readonly | intros ?]).
  destruct (Req_dec_T _ 0); [destruct (Rgt_dec _ 0)|]; auto with readonly.
Qed.

Lemma preserves_calculateRotationMatrix : preserves Bar.calculateRotationMatrix.
Proof. unfold Bar.calculateRotationMatrix. auto with readonly. Qed.

Lemma preserves_getNodesGlobalForces : preserves Bar.getNodesGlobalForces.
Proof.
  unfold Bar.getNodesGlobalForces, Bar.node_field.
  repeat (apply preserves_bind; [auto with readonly | intros ?]).
  auto with readonly.
Qed.

Lemma preserves_calculateStiffnessMatrix : preserves Bar.calculateStiffnessMatrix.
Proof.
  unfold Bar.calculateStiffnessMatrix.
  repeat (apply preserves_bind; [auto with readonly | intros ?]).
  auto with readonly.
Qed.

Lemma snd_bind_preserves {A B} (m : M A) (k : A -> M B) (st : state) :
  preserves m -> (forall a, snd (k a st) = st) -> snd (bind m k st) = st.
Proof.
  intros Hm Hk. unfold bind. specialize (Hm st).
  destruct (m st) as [[e | a] st']; cbn in Hm; subst st'; [reflexivity | apply Hk].
Qed.

(** The first integrand reads [self.local_q_x] before anything else: without
    that attribute [quad] raises at its first evaluation. *)
Lemma quad_total_q_x_raises {B} (integrate : (R -> R) -> R -> R -> R)
    (k1 : value -> R -> M R) (k2 : R -> R -> M R) (k : R -> M B) (a b : R) (st : state) :
  attrs st !! "local_q_x" = None ->
  bind (Bar.quad integrate
          (fun x => u <- (lx <- getattr "local_q_x" ;; k1 lx x) ;; k2 u x) a b) k st
  = (inl (AttributeError "local_q_x"), st).
Proof.
  intros H. apply run_bind_err. unfold Bar.quad.
  erewrite run_bind_err; [reflexivity |].
  now apply run_getattr_None.
Qed.

Lemma calculateForceVector_run (integrate : (R -> R) -> R -> R -> R) (st : state)
    (angle L : R) :
  attrs st !! "angle" = Some (VNum angle) ->
  attrs st !! "L" = Some (VNum L) ->
  attrs st !! "local_q_x" = None ->
  Bar.calculateForceVector integrate st = (inl (AttributeError "local_q_x"), st).
Proof.
  intros Ha HL Hq. unfold Bar.calculateForceVector.
  rewrite (run_get_num _ angle) by assumption.
  rewrite (run_get_num _ angle) by assumption.
  rewrite (run_get_num _ L) by assumption.
  now apply quad_total_q_x_raises.
Qed.

Lemma calculateForceVector_unchanged (integrate : (R -> R) -> R -> R -> R) (st : state) :
  attrs st !! "local_q_x" = None ->
  snd (Bar.calculateForceVector integrate st) = st.
Proof.
  intros Hq. unfold Bar.calculateForceVector.
  apply snd_bind_preserves; [auto with readonly | intros a].
  apply snd_bind_preserves; [auto with readonly | intros a'].
  apply snd_bind_preserves; [auto with readonly | intros L].
  now rewrite quad_total_q_x_raises.
Qed.

(** ** The constructor and the load vector *)

Lemma init_run (integrate : (R -> R) -> R -> R -> R) (st : state) (l r : loc)
    (E A I : R) (gqx lqx gqy lqy : value) :
  Bar.__init__ integrate (VNode l) (VNode r) (VNum E) (VNum A) (VNum I)
    gqx lqx gqy lqy (with_attrs ∅ st)
  = (inl (AttributeError "local_q_x"),
     with_attrs (init_dict st ∅ l r E A I gqx lqx gqy lqy) st).
Proof.
  unfold Bar.__init__.
  erewrite run_bind_ok by apply init_fields_run.
  erewrite run_bind_err; [reflexivity |].
  apply (calculateForceVector_run integrate _ (bar_angle st l r) (bar_length st l r));
    unfold init_dict; lookup_attr.
Qed.

(** C1. Constructing a [Bar] never succeeds: for every pair of nodes, every
    [E], [A], [I] and every four load functions, [__init__] assigns the
    fields up to the rotation matrices and then raises [AttributeError] for
    [local_q_x] inside the computation of the load vector; [force_vector],
    [N] and [sigma] are never assigned. *)
Theorem Bar_init_raises (integrate : (R -> R) -> R -> R -> R) (st : state) (l r : loc)
    (E A I : R) (gqx lqx gqy lqy : R -> R) :
  let res := Bar.__init__ integrate (VNode l) (VNode r) (VNum E) (VNum A) (VNum I)
               (VFun gqx) (VFun lqx) (VFun gqy) (VFun lqy) (with_attrs ∅ st) in
  fst res = inl (AttributeError "local_q_x") /\
  attrs (snd res) !! "stiffness_matrix"
    = Some (VMatrix (bar_stiffness E A I (bar_length st l r) (bar_angle st l r))) /\
  attrs (snd res) !! "force_vector" = None /\
  attrs (snd res) !! "N" = None /\
  attrs (snd res) !! "sigma" = None.
Proof.
  intros res. unfold res. rewrite init_run. cbn [fst snd].
  split; [reflexivity |].
  repeat split; unfold init_dict; lookup_attr.
Qed.

(** C3. On the object that the constructor has built when it reaches the
    load vector, [calculateForceVector] returns no vector: the first
    integrand reads the attribute [local_q_x], which the class never
    assigns (the load functions are stored under [local_loads] and
    [global_loads]), so the first call of [quad] raises [AttributeError]. *)
Theorem calculateForceVector_raises (integrate : (R -> R) -> R -> R -> R) (st : state)
    (l r : loc) (E A I : R) (gqx lqx gqy lqy : R -> R) :
  let self := with_attrs
                (init_dict st ∅ l r E A I (VFun gqx) (VFun lqx) (VFun gqy) (VFun lqy)) st in
  snd (Bar.init_fields (VNode l) (VNode r) (VNum E) (VNum A) (VNum I)
         (VFun gqx) (VFun lqx) (VFun gqy) (VFun lqy) (with_attrs ∅ st)) = self /\
  attrs self !! "local_loads" = Some (VList [VFun lqx; VFun lqy]) /\
  attrs self !! "local_q_x" = None /\
  Bar.calculateForceVector integrate self = (inl (AttributeError "local_q_x"), self).
Proof.
  intros self. split; [now rewrite init_fields_run |].
  split; [unfold self, init_dict; lookup_attr |].
  split; [unfold self, init_dict; lookup_attr |].
  apply (calculateForceVector_run integrate _ (bar_angle st l r) (bar_length st l r));
    unfold self, init_dict; lookup_attr.
Qed.

(** ** The stiffness matrix *)

Lemma frame_matrix_symmetric (mu k L c s : R) :
  transpose (frame_matrix mu k L c s) = frame_matrix mu k L c s.
Proof. reflexivity. Qed.

Lemma frame_matrix_shape (mu k L c s : R) :
  length (frame_matrix mu k L c s) = 6%nat /\
  Forall (fun row => length row = 6%nat) (frame_matrix mu k L c s).
Proof. split; [reflexivity | repeat constructor]. Qed.

(** C8. The stiffness matrix that the constructor stores is a 6 by 6 array
    equal to its transpose, for every pair of nodes and all [E], [A], [I];
    [calculateStiffnessMatrix] returns the same array on the object. *)
Theorem stiffness_matrix_symmetric (st : state) (l r : loc) (E A I : R)
    (gqx lqx gqy lqy : value) :
  let self := snd (Bar.init_fields (VNode l) (VNode r) (VNum E) (VNum A) (VNum I)
                     gqx lqx gqy lqy (with_attrs ∅ st)) in
  exists K : list (list R),
    attrs self !! "stiffness_matrix" = Some (VMatrix K) /\
    Bar.calculateStiffnessMatrix self = (inr K, self) /\
    length K = 6%nat /\ Forall (fun row => length row = 6%nat) K /\
    transpose K = K.
Proof.
  intros self. unfold self. rewrite init_fields_run. cbn [snd].
  exists (bar_stiffness E A I (bar_length st l r) (bar_angle st l r)).
  split; [unfold init_dict; lookup_attr |].
  split; [apply calculateStiffnessMatrix_run; unfold init_dict; lookup_attr |].
  split; [apply frame_matrix_shape |].
  split; [apply frame_matrix_shape | apply frame_matrix_symmetric].
Qed.

Lemma bar_length_unit : bar_length (two_nodes (0, 0) (1, 0)) 0%nat 1%nat = 1.
Proof.
  unfold bar_length, norm2. cbn.
  replace ((0 - 1) * ((0 - 1) * 1) + (0 - 0) * ((0 - 0) * 1)) with 1 by ring.
  apply sqrt_1.
Qed.

Lemma bar_angle_unit : bar_angle (two_nodes (0, 0) (1, 0)) 0%nat 1%nat = 0.
Proof.
  unfold bar_angle. cbn.
  destruct (Req_dec_T (1 - 0) 0) as [H | _]; [lra |].
  replace ((0 - 0) / (1 - 0)) with 0 by (unfold Rdiv; ring).
  apply atan_0.
Qed.

(** C2. A bar from (0,0) to (1,0) with [E = 1], [A = 1], [I = 2]: the
    constructor's stiffness matrix has [K[0][0] = 4], the axial term of the
    closed form is [E A / L = 1].  The source computes
    [mu = A * L**2 / 2 * I], that is [(A L^2 / 2) I], where the closed form
    has [A L^2 / (2 I)]. *)
Theorem stiffness_matrix_mu_slip :
  let self := snd (Bar.init_fields (VNode 0%nat) (VNode 1%nat) (VNum 1) (VNum 1) (VNum 2)
                     zero_load zero_load zero_load zero_load
                     (two_nodes (0, 0) (1, 0))) in
  exists K : list (list R),
    attrs self !! "stiffness_matrix" = Some (VMatrix K) /\
    K = frame_matrix (1 * 1 ^ 2 / 2 * 2) (2 * 1 * 2 / 1 ^ 3) 1 (cos 0) (sin 0) /\
    entry K 0 0 = 4 /\
    entry (spec_stiffness 1 1 2 1 0) 0 0 = 1 /\
    K <> spec_stiffness 1 1 2 1 0.
Proof.
  intros self. unfold self. rewrite init_fields_run. cbn [snd].
  eexists. split; [unfold init_dict; lookup_attr |].
  cbn [attrs with_attrs two_nodes]. fold (two_nodes (0, 0) (1, 0)).
  rewrite bar_length_unit, bar_angle_unit.
  assert (H4 : entry (bar_stiffness 1 1 2 1 0) 0 0 = 4).
  { unfold entry, bar_stiffness, frame_matrix, scale. cbn [map nth].
    rewrite cos_0, sin_0. field. }
  assert (H1 : entry (spec_stiffness 1 1 2 1 0) 0 0 = 1).
  { unfold entry, spec_stiffness, frame_matrix, scale. cbn [map nth].
    rewrite cos_0, sin_0. field. }
  split; [reflexivity |]. split; [exact H4 |]. split; [exact H1 |].
  intros Heq. rewrite Heq, H1 in H4. lra.
Qed.

(** ** The angle *)

Lemma bar_angle_range (st : state) (l r : loc) :
  - PI / 2 <= bar_angle st l r <= PI / 2.
Proof.
  unfold bar_angle. cbv zeta.
  pose proof PI_RGT_0 as Hpi.
  destruct (Req_dec_T _ 0); [destruct (Rgt_dec _ 0); lra |].
  match goal with |- _ <= atan ?x <= _ => pose proof (atan_bound x) end. lra.
Qed.

Lemma bar_angle_vertical_down (st : state) (l r : loc) :
  fst (position (nodes st r)) - fst (position (nodes st l)) = 0 ->
  snd (position (nodes st r)) - snd (position (nodes st l)) <= 0 ->
  bar_angle st l r = - PI / 2.
Proof.
  intros Hx Hy. unfold bar_angle. cbv zeta.
  destruct (Req_dec_T _ 0) as [_ | Hne]; [| contradiction].
  destruct (Rgt_dec _ 0) as [Hgt | _]; [lra | reflexivity].
Qed.

Lemma bar_angle_atan2 (st : state) (l r : loc) :
  let dx := fst (position (nodes st r)) - fst (position (nodes st l)) in
  let dy := snd (position (nodes st r)) - snd (position (nodes st l)) in
  dx <> 0 \/ dy <> 0 ->
  bar_angle st l r =
    if Rle_dec 0 dx then atan2 dy dx
    else if Rle_dec 0 dy then atan2 dy dx - PI else atan2 dy dx + PI.
Proof.
  intros dx dy Hd. unfold bar_angle, atan2. fold dx dy.
  destruct (Req_dec_T dx 0) as [H0 | Hn0].
  - destruct (Rle_dec 0 dx) as [_ | H]; [| lra].
    destruct (Rlt_dec 0 dx) as [H | _]; [lra |].
    destruct (Rlt_dec dx 0) as [H | _]; [lra |].
    destruct (Rgt_dec dy 0) as [Hgt | Hng].
    + destruct (Rlt_dec 0 dy) as [_ | H]; [reflexivity | lra].
    + destruct (Rlt_dec 0 dy) as [H | _]; [lra |].
      destruct (Rlt_dec dy 0) as [_ | H]; [reflexivity | lra].
  - destruct (Rle_dec 0 dx) as [Hle | Hlt].
    + destruct (Rlt_dec 0 dx) as [_ | H]; [reflexivity | lra].
    + destruct (Rlt_dec 0 dx) as [H | _]; [lra |].
      destruct (Rlt_dec dx 0) as [_ | H]; [| lra].
      destruct (Rle_dec 0 dy); lra.
Qed.

(** C10. The angle that [getBarAngle] returns lies in [[-PI/2, PI/2]], and it
    is exactly [-PI/2] when [dx = 0] and [dy <= 0], the degenerate [dy = 0]
    included. *)
Theorem getBarAngle_range (st : state) (l r : loc) :
  attrs st !! "left_node" = Some (VNode l) ->
  attrs st !! "right_node" = Some (VNode r) ->
  let dx := fst (position (nodes st r)) - fst (position (nodes st l)) in
  let dy := snd (position (nodes st r)) - snd (position (nodes st l)) in
  exists a : R,
    Bar.getBarAngle st = (inr a, st) /\
    - PI / 2 <= a <= PI / 2 /\
    (dx = 0 -> dy <= 0 -> a = - PI / 2).
Proof.
  intros Hl Hr dx dy. exists (bar_angle st l r).
  split; [now apply getBarAngle_run |].
  split; [apply bar_angle_range |].
  apply bar_angle_vertical_down.
Qed.

Lemma getBarAngle_range_witness :
  Bar.getBarAngle (bar_between (0, 0) (0, 0) 1 1 1)
  = (inr (- PI / 2), bar_between (0, 0) (0, 0) 1 1 1).
Proof.
  destruct (getBarAngle_range (bar_between (0, 0) (0, 0) 1 1 1) 0%nat 1%nat)
    as (a & Ha & _ & Hd).
  - unfold bar_between, init_dict. lookup_attr.
  - unfold bar_between, init_dict. lookup_attr.
  - rewrite Ha, Hd; [reflexivity | cbn; lra | cbn; lra].
Defined.

(** C4, as the code has it.  For endpoints at distinct positions
    [getBarAngle] returns [atan2 dy dx] when [dx >= 0]; when [dx < 0] it
    returns [arctan (dy / dx)], which is [atan2 dy dx - PI] for [dy >= 0] and
    [atan2 dy dx + PI] for [dy < 0]. *)
Theorem getBarAngle_atan2_half_plane (st : state) (l r : loc) :
  attrs st !! "left_node" = Some (VNode l) ->
  attrs st !! "right_node" = Some (VNode r) ->
  let dx := fst (position (nodes st r)) - fst (position (nodes st l)) in
  let dy := snd (position (nodes st r)) - snd (position (nodes st l)) in
  dx <> 0 \/ dy <> 0 ->
  Bar.getBarAngle st =
    (inr (if Rle_dec 0 dx then atan2 dy dx
          else if Rle_dec 0 dy then atan2 dy dx - PI else atan2 dy dx + PI), st).
Proof.
  intros Hl Hr dx dy Hd.
  rewrite (getBarAngle_run st l r Hl Hr).
  now rewrite (bar_angle_atan2 st l r Hd).
Qed.

Lemma atan2_negative_x_axis : atan2 (0 - 0) (-1 - 0) = PI.
Proof.
  unfold atan2.
  destruct (Rlt_dec 0 (-1 - 0)) as [H | _]; [lra |].
  destruct (Rlt_dec (-1 - 0) 0) as [_ | H]; [| lra].
  destruct (Rle_dec 0 (0 - 0)) as [_ | H]; [| lra].
  replace ((0 - 0) / (-1 - 0)) with 0 by (unfold Rdiv; ring).
  rewrite atan_0. ring.
Qed.

Lemma getBarAngle_atan2_half_plane_witness :
  Bar.getBarAngle (bar_between (0, 0) (-1, 0) 1 1 1)
  = (inr (PI - PI), bar_between (0, 0) (-1, 0) 1 1 1).
Proof.
  rewrite (getBarAngle_atan2_half_plane (bar_between (0, 0) (-1, 0) 1 1 1) 0%nat 1%nat).
  - cbn [nodes bar_between with_attrs two_nodes position Node_new fst snd].
    destruct (Rle_dec 0 (-1 - 0)) as [H | _]; [lra |].
    destruct (Rle_dec 0 (0 - 0)) as [_ | H]; [| lra].
    now rewrite atan2_negative_x_axis.
  - unfold bar_between, init_dict. lookup_attr.
  - unfold bar_between, init_dict. lookup_attr.
  - left. cbn. lra.
Defined.

(** C4, as stated, fails for a bar that points in the negative [x]
    direction: from (0,0) to (-1,0) the code returns [0], and
    [atan2 0 (-1)] is [PI]. *)
Lemma getBarAngle_not_atan2 :
  let st := bar_between (0, 0) (-1, 0) 1 1 1 in
  let dx := fst (position (nodes st 1%nat)) - fst (position (nodes st 0%nat)) in
  let dy := snd (position (nodes st 1%nat)) - snd (position (nodes st 0%nat)) in
  position (nodes st 0%nat) <> position (nodes st 1%nat) /\
  Bar.getBarAngle st = (inr 0, st) /\
  atan2 dy dx = PI /\
  fst (Bar.getBarAngle st) <> inr (atan2 dy dx).
Proof.
  intros st dx dy.
  assert (Ha : Bar.getBarAngle st = (inr 0, st)).
  { rewrite (getBarAngle_run st 0%nat 1%nat)
      by (unfold st, bar_between, init_dict; lookup_attr).
    do 2 f_equal. unfold bar_angle, st. cbn.
    destruct (Req_dec_T (-1 - 0) 0) as [H | _]; [lra |].
    replace ((0 - 0) / (-1 - 0)) with 0 by (unfold Rdiv; ring).
    apply atan_0. }
  assert (Hp : atan2 dy dx = PI) by apply atan2_negative_x_axis.
  split; [| split; [exact Ha | split; [exact Hp |]]].
  - cbn. intros H. injection H as H. lra.
  - rewrite Ha, Hp. cbn. intros H. injection H as H.
    pose proof PI_RGT_0. lra.
Qed.

(** ** Construction and invalid input *)

Lemma bar_length_coincident (st : state) (l r : loc) :
  position (nodes st l) = position (nodes st r) -> bar_length st l r = 0.
Proof.
  intros H. unfold bar_length, norm2. rewrite H.
  replace ((fst (position (nodes st r)) - fst (position (nodes st r))) ^ 2 +
           (snd (position (nodes st r)) - snd (position (nodes st r))) ^ 2)
    with 0 by ring.
  apply sqrt_0.
Qed.

(** C5, as the code has it.  The constructor validates nothing: for all
    node positions and all [E], [A], [I] the field assignments that precede
    the load vector complete without raising; [L] and [Li] both hold the
    distance of the endpoints, which is [0] when they coincide, and [E], [A],
    [I] are stored as given. *)
Theorem Bar_init_no_validation (st : state) (l r : loc) (E A I : R)
    (gqx lqx gqy lqy : value) :
  let res := Bar.init_fields (VNode l) (VNode r) (VNum E) (VNum A) (VNum I)
               gqx lqx gqy lqy (with_attrs ∅ st) in
  fst res = inr tt /\
  attrs (snd res) !! "L" = Some (VNum (bar_length st l r)) /\
  attrs (snd res) !! "Li" = Some (VNum (bar_length st l r)) /\
  attrs (snd res) !! "E" = Some (VNum E) /\
  attrs (snd res) !! "A" = Some (VNum A) /\
  attrs (snd res) !! "I" = Some (VNum I) /\
  (position (nodes st l) = position (nodes st r) -> bar_length st l r = 0).
Proof.
  intros res. unfold res. rewrite init_fields_run. cbn [fst snd].
  split; [reflexivity |].
  repeat (split; [unfold init_dict; lookup_attr |]).
  apply bar_length_coincident.
Qed.

Lemma Bar_init_no_validation_witness :
  fst (Bar.init_fields (VNode 0%nat) (VNode 1%nat) (VNum (-1)) (VNum 0) (VNum 0)
         zero_load zero_load zero_load zero_load
         (with_attrs ∅ (two_nodes (0, 0) (0, 0)))) = inr tt /\
  bar_length (two_nodes (0, 0) (0, 0)) 0%nat 1%nat = 0.
Proof.
  pose proof (Bar_init_no_validation (two_nodes (0, 0) (0, 0)) 0%nat 1%nat (-1) 0 0
                zero_load zero_load zero_load zero_load) as H.
  cbv zeta in H. destruct H as (Hok & _ & _ & _ & _ & _ & Hz).
  split; [exact Hok | apply Hz; reflexivity].
Defined.

(** C5, as stated, fails: with both endpoints at (0,0) and [E = -1],
    [A = 0], [I = 0] nothing is rejected.  The field assignments succeed and
    store [L = 0] and [E = -1]; the constructor then stops with the same
    [AttributeError] as for every other input, not with a geometry error. *)
Lemma Bar_init_accepts_degenerate :
  let st := two_nodes (0, 0) (0, 0) in
  let fields := Bar.init_fields (VNode 0%nat) (VNode 1%nat) (VNum (-1)) (VNum 0) (VNum 0)
                  zero_load zero_load zero_load zero_load in
  let init := Bar.__init__ midpoint_rule (VNode 0%nat) (VNode 1%nat)
                  (VNum (-1)) (VNum 0) (VNum 0)
                  zero_load zero_load zero_load zero_load in
  position (nodes st 0%nat) = position (nodes st 1%nat) /\
  fst (fields st) = inr tt /\
  attrs (snd (fields st)) !! "L" = Some (VNum 0) /\
  attrs (snd (fields st)) !! "E" = Some (VNum (-1)) /\
  fst (init st) = inl (AttributeError "local_q_x") /\
  attrs (snd (init st)) !! "L" = Some (VNum 0).
Proof.
  intros st fields init.
  assert (H0 : bar_length st 0%nat 1%nat = 0)
    by (apply bar_length_coincident; reflexivity).
  pose proof (init_run midpoint_rule st 0%nat 1%nat (-1) 0 0
                zero_load zero_load zero_load zero_load) as Hi.
  change (with_attrs ∅ st) with st in Hi. fold init in Hi.
  unfold fields. rewrite init_fields_run, Hi. cbn [fst snd].
  split; [reflexivity |]. split; [reflexivity |].
  split; [rewrite <- H0; unfold init_dict; lookup_attr |].
  split; [unfold init_dict; lookup_attr |].
  split; [reflexivity |].
  rewrite <- H0; unfold init_dict; lookup_attr.
Qed.

(** ** Post-solve recovery *)

Lemma setBarNormalAndStress_run (st : state) (l r : loc) (E A L0 : R) :
  attrs st !! "left_node" = Some (VNode l) ->
  attrs st !! "right_node" = Some (VNode r) ->
  attrs st !! "E" = Some (VNum E) ->
  attrs st !! "A" = Some (VNum A) ->
  attrs st !! "Li" = Some (VNum L0) ->
  Bar.setBarNormalAndStress st =
    (inr tt,
     with_attrs
       (<["N" := VNum (E * (bar_length st l r - L0) / L0 * A)]>
        (<["sigma" := VNum (E * (bar_length st l r - L0) / L0)]>
         (<["L" := VNum (bar_length st l r)]> (attrs st)))) st).
Proof.
  intros Hl Hr HE HA HL0. unfold Bar.setBarNormalAndStress.
  erewrite run_bind_ok by (apply (calculateBarLength_run _ l r); assumption).
  rewrite run_setattr.
  rewrite (run_get_num _ E) by lookup_attr.
  rewrite (run_get_num _ (bar_length st l r)) by lookup_attr.
  rewrite (run_get_num _ L0) by lookup_attr.
  rewrite (run_get_num _ L0) by lookup_attr.
  rewrite run_setattr.
  rewrite (run_get_num _ A) by lookup_attr.
  reflexivity.
Qed.

(** C7. [setBarNormalAndStress] succeeds on an object that has its nodes,
    [E], [A] and the reference length [Li]; it stores the current length [L]
    of the node positions, [sigma = E (L - Li) / Li] and [N = sigma A], and
    keeps [Li].  Called again with the nodes where they are it changes
    nothing; when the current length is the reference length (nodes back at
    their construction positions, [Li <> 0]) the stress is [0]. *)
Theorem setBarNormalAndStress_recovery (st : state) (l r : loc) (E A L0 : R) :
  attrs st !! "left_node" = Some (VNode l) ->
  attrs st !! "right_node" = Some (VNode r) ->
  attrs st !! "E" = Some (VNum E) ->
  attrs st !! "A" = Some (VNum A) ->
  attrs st !! "Li" = Some (VNum L0) ->
  let L := bar_length st l r in
  let sigma := E * (L - L0) / L0 in
  let st' := snd (Bar.setBarNormalAndStress st) in
  fst (Bar.setBarNormalAndStress st) = inr tt /\
  attrs st' !! "L" = Some (VNum L) /\
  attrs st' !! "sigma" = Some (VNum sigma) /\
  attrs st' !! "N" = Some (VNum (sigma * A)) /\
  attrs st' !! "Li" = Some (VNum L0) /\
  Bar.setBarNormalAndStress st' = (inr tt, st') /\
  (L0 <> 0 -> L = L0 -> sigma = 0).
Proof.
  intros Hl Hr HE HA HL0 L sigma st'.
  unfold st'. rewrite (setBarNormalAndStress_run st l r E A L0) by assumption.
  cbn [fst snd]. fold L. fold sigma.
  split; [reflexivity |].
  do 4 (split; [lookup_attr |]).
  split.
  - rewrite (setBarNormalAndStress_run _ l r E A L0) by lookup_attr.
    f_equal. unfold with_attrs. cbn [nodes fresh attrs]. f_equal.
    change (bar_length _ l r) with L. fold sigma.
    rewrite (insert_id _ "L" (VNum L)) by lookup_attr.
    rewrite (insert_id _ "sigma" (VNum sigma)) by lookup_attr.
    apply insert_id. lookup_attr.
  - intros Hn HL. unfold sigma. rewrite HL. field. exact Hn.
Qed.

Lemma setBarNormalAndStress_recovery_witness :
  attrs (snd (Bar.setBarNormalAndStress (bar_between (0, 0) (1, 0) 2 3 1))) !! "sigma"
  = Some (VNum 0).
Proof.
  pose proof (setBarNormalAndStress_recovery (bar_between (0, 0) (1, 0) 2 3 1)
                0%nat 1%nat 2 3 (bar_length (two_nodes (0, 0) (1, 0)) 0%nat 1%nat)) as H.
  cbv zeta in H.
  destruct H as (_ & _ & Hs & _ & _ & _ & H0).
  - unfold bar_between, init_dict. lookup_attr.
  - unfold bar_between, init_dict. lookup_attr.
  - unfold bar_between, init_dict. lookup_attr.
  - unfold bar_between, init_dict. lookup_attr.
  - unfold bar_between, init_dict. lookup_attr.
  - rewrite Hs. rewrite H0; [reflexivity | | reflexivity].
    rewrite bar_length_unit. lra.
Defined.

(** ** What the methods may change *)

Lemma frame_refl (st : state) : frame st st.
Proof. repeat split. Qed.

Lemma frame_trans (st1 st2 st3 : state) : frame st1 st2 -> frame st2 st3 -> frame st1 st3.
Proof.
  intros (Hn & Hf & Ha) (Hn' & Hf' & Ha'). repeat split.
  - now rewrite Hn'.
  - now rewrite Hf'.
  - intros a Hin. rewrite Ha' by assumption. now apply Ha.
Qed.

Lemma frames_preserves {A} (m : M A) : preserves m -> frames m.
Proof. intros H st. rewrite H. apply frame_refl. Qed.

Lemma frames_bind {A B} (m : M A) (k : A -> M B) :
  frames m -> (forall a, frames (k a)) -> frames (bind m k).
Proof.
  intros Hm Hk st. unfold bind. specialize (Hm st).
  destruct (m st) as [[e | a] st1]; cbn [snd] in *; [assumption |].
  eapply frame_trans; [eassumption | apply Hk].
Qed.

Lemma frames_setattr (n : string) (v : value) :
  n ∈ mutable_attrs -> frames (setattr n v).
Proof.
  intros Hin st. repeat split. intros a Hnotin. cbn.
  apply lookup_insert_ne. intros ->. contradiction.
Qed.

Lemma frames_setBarNormalAndStress : frames Bar.setBarNormalAndStress.
Proof.
  unfold Bar.setBarNormalAndStress.
  repeat first
    [ apply frames_bind; [| intros ?]
    | apply frames_preserves; solve [auto using preserves_calculateBarLength with readonly]
    | apply frames_setattr; mutable_attr ].
Qed.

Lemma invoke_readonly (integrate : (R -> R) -> R -> R -> R) (m : method) (st : state) :
  attrs st !! "local_q_x" = None ->
  m <> SetBarNormalAndStress ->
  snd (invoke integrate m st) = st.
Proof.
  intros Hq Hm.
  destruct m; cbn [invoke]; try contradiction;
    try (apply preserves_discard;
         first [ apply preserves_getBarLength | apply preserves_calculateBarLength
               | apply preserves_getBarAngle | apply preserves_calculateRotationMatrix
               | apply preserves_getNodesGlobalForces
               | apply preserves_calculateStiffnessMatrix
               | apply preserves_getattr ]).
  unfold discard, bind.
  pose proof (calculateForceVector_unchanged integrate st Hq) as H.
  destruct (Bar.calculateForceVector integrate st) as [[e | v] st']; exact H.
Qed.

(** C9. On an object of the class (which has no attribute [local_q_x]) no
    method touches the nodes, and no method changes an attribute other than
    [L], [N] and [sigma]: in particular the stiffness matrix, the load
    vector, [Li], [E], [A], [I], the angle and the rotation matrices stay as
    they are.  Every method other than [setBarNormalAndStress] leaves the
    whole object unchanged. *)
Theorem only_L_N_sigma_mutate (integrate : (R -> R) -> R -> R -> R) (m : method)
    (st : state) :
  attrs st !! "local_q_x" = None ->
  let st' := snd (invoke integrate m st) in
  nodes st' = nodes st /\
  (forall a : string, a ∉ mutable_attrs -> attrs st' !! a = attrs st !! a) /\
  attrs st' !! "stiffness_matrix" = attrs st !! "stiffness_matrix" /\
  attrs st' !! "force_vector" = attrs st !! "force_vector" /\
  (m <> SetBarNormalAndStress -> st' = st).
Proof.
  intros Hq st'.
  assert (Hf : frame st st').
  { assert (Hd : m = SetBarNormalAndStress \/ m <> SetBarNormalAndStress)
      by (destruct m; first [now left | now right]).
    destruct Hd as [-> | Hm].
    - apply frames_setBarNormalAndStress.
    - unfold st'. rewrite invoke_readonly by assumption. apply frame_refl. }
  destruct Hf as (Hn & _ & Ha).
  split; [exact Hn |]. split; [exact Ha |].
  split; [apply Ha; mutable_attr |].
  split; [apply Ha; mutable_attr |].
  intros Hm. now apply invoke_readonly.
Qed.

Lemma only_L_N_sigma_mutate_witness :
  attrs (snd (invoke midpoint_rule SetBarNormalAndStress (bar_between (0, 0) (1, 0) 2 3 1)))
    !! "stiffness_matrix"
  = attrs (bar_between (0, 0) (1, 0) 2 3 1) !! "stiffness_matrix".
Proof.
  apply (only_L_N_sigma_mutate midpoint_rule SetBarNormalAndStress
           (bar_between (0, 0) (1, 0) 2 3 1)).
  unfold bar_between, init_dict. lookup_attr.
Defined.

(** ** The discretizer *)

Lemma Bar_new_unexpected_keyword (integrate : (R -> R) -> R -> R -> R)
    (a b q E A : value) (st : state) :
  Bar_new integrate
    [("left_node", a); ("right_node", b); ("q", q); ("E", E); ("A", A)] st
  = (inl (TypeError "got an unexpected keyword argument"), st).
Proof. reflexivity. Qed.

(** The first loop: one new node per index, under consecutive references;
    the nodes that existed stay as they are. *)
Lemma node_loop_run (f : Z -> Node) (l : list Z) :
  forall (acc : list loc) (st : state),
  exists st' : state,
    for_each l (fun nodes i => node <- alloc (f i) ;; ret (nodes ++ [node])%list) acc st
    = (inr (acc ++ seq (fresh st) (length l))%list, st') /\
    fresh st' = (fresh st + length l)%nat /\
    attrs st' = attrs st /\
    (forall n : loc, (n < fresh st)%nat -> nodes st' n = nodes st n) /\
    (forall (k : nat) (i : Z), l !! k = Some i -> nodes st' (fresh st + k)%nat = f i).
Proof.
  induction l as [| i l IH]; intros acc st.
  - exists st. cbn. rewrite app_nil_r.
    repeat split; [lia | intros k i H; discriminate H].
  - cbn [for_each length seq].
    set (st1 := {| nodes := <[fresh st := f i]> (nodes st);
                   fresh := S (fresh st); attrs := attrs st |}).
    destruct (IH (acc ++ [fresh st])%list st1) as (st' & Hrun & Hf & Ha & Hold & Hnew).
    exists st'. split; [| split; [| split; [| split]]].
    + unfold bind at 1. unfold bind at 1. unfold alloc at 1. cbn [ret].
      fold st1. rewrite Hrun. now rewrite <- app_assoc.
    + rewrite Hf. cbn. lia.
    + now rewrite Ha.
    + intros n Hn. rewrite Hold by (cbn; lia). cbn.
      apply fn_lookup_insert_ne. lia.
    + intros [| k] j Hk.
      * cbn in Hk. injection Hk as <-. rewrite Nat.add_0_r.
        rewrite Hold by (cbn; lia). cbn. apply fn_lookup_insert.
      * cbn in Hk. replace (fresh st + S k)%nat with (fresh st1 + k)%nat by (cbn; lia).
        now apply Hnew.
Qed.

(** The second loop stops in its first iteration. *)
Lemma bar_loop_raises (integrate : (R -> R) -> R -> R -> R) (l r : loc) (q E A : value)
    (n : Z) (nodes : list loc) (st : state) :
  (1 <= n)%Z ->
  length nodes = Z.to_nat (n - 1) ->
  for_each (range 0 n) (fun (bars : list (gmap string value)) (i : Z) =>
      node_i <- (if bool_decide (i = 0)%Z then ret l else py_index nodes (i - 1)) ;;
      node_j <- (if bool_decide (i = n - 1)%Z then ret r else py_index nodes i) ;;
      bar <- Bar_new integrate [("left_node", VNode node_i); ("right_node", VNode node_j);
                                ("q", q); ("E", E); ("A", A)] ;;
      ret (bars ++ [bar])%list) [] st
  = (inl (TypeError "got an unexpected keyword argument"), st).
Proof.
  intros Hn Hlen. unfold range. rewrite seqZ_cons by lia. cbn [for_each].
  apply run_bind_err.
  rewrite bool_decide_true by reflexivity. rewrite run_ret.
  case_bool_decide as Hlast.
  - rewrite run_ret. apply run_bind_err. apply Bar_new_unexpected_keyword.
  - destruct nodes as [| n0 nodes]; [cbn in Hlen; lia |].
    unfold py_index.
    rewrite (bool_decide_false (0 < 0)%Z) by lia.
    rewrite (bool_decide_true (0 <= 0)%Z) by lia.
    change ((n0 :: nodes) !! Z.to_nat 0) with (Some n0). cbv iota. rewrite run_ret.
    apply run_bind_err. apply Bar_new_unexpected_keyword.
Qed.

(** C6. For every element count [n >= 1] the discretizer creates its [n - 1]
    intermediate nodes, evenly spaced between the boundary nodes, and then
    raises [TypeError] at the first [Bar(...)]: the call passes the keyword
    [q], which [Bar.__init__] does not have, and leaves [I] and the four load
    functions without argument.  No bar is returned. *)
Theorem discretizateBar_raises (integrate : (R -> R) -> R -> R -> R) (st : state)
    (l r : loc) (q E A : value) (n : Z) :
  (1 <= n)%Z ->
  let lx := fst (position (nodes st l)) in
  let ly := snd (position (nodes st l)) in
  let dx := (fst (position (nodes st r)) - lx) / IZR n in
  let dy := (snd (position (nodes st r)) - ly) / IZR n in
  let res := discretizateBar integrate l r q E A n st in
  fst res = inl (TypeError "got an unexpected keyword argument") /\
  fresh (snd res) = (fresh st + Z.to_nat (n - 1))%nat /\
  (forall k : nat, (k < Z.to_nat (n - 1))%nat ->
     position (nodes (snd res) (fresh st + k)%nat)
     = (lx + IZR (1 + Z.of_nat k) * dx, ly + IZR (1 + Z.of_nat k) * dy)).
Proof.
  intros Hn lx ly dx dy res. unfold res, discretizateBar.
  rewrite run_bind_ok with (a := nodes st l) (st' := st) by reflexivity.
  rewrite run_bind_ok with (a := nodes st r) (st' := st) by reflexivity.
  fold lx ly. fold dx dy.
  destruct (node_loop_run
              (fun i => Node_new (lx + IZR i * dx) (ly + IZR i * dy) 0 0 false false)
              (range 1 n) [] st) as (st1 & Hrun & Hf & _ & _ & Hnew).
  erewrite run_bind_ok by exact Hrun.
  unfold range in Hf, Hnew. rewrite length_seqZ in Hf.
  erewrite run_bind_err
    by (apply bar_loop_raises; [exact Hn |];
        cbn [app]; rewrite length_seq; unfold range; rewrite length_seqZ; lia).
  cbn [fst snd].
  split; [reflexivity |].
  split; [rewrite Hf; f_equal; lia |].
  intros k Hk. rewrite (Hnew k (1 + Z.of_nat k)%Z); [reflexivity |].
  apply lookup_seqZ_lt. lia.
Qed.

(** For an element count below [1] both loops are empty: the discretizer
    returns no bar and no node, and raises nothing. *)
Lemma discretizateBar_nonpositive (integrate : (R -> R) -> R -> R -> R) (st : state)
    (l r : loc) (q E A : value) (n : Z) :
  (n <= 0)%Z ->
  discretizateBar integrate l r q E A n st = (inr ([], []), st).
Proof.
  intros Hn. unfold discretizateBar, range.
  rewrite !seqZ_nil by lia. reflexivity.
Qed.

Lemma discretizateBar_raises_witness :
  fst (discretizateBar midpoint_rule 0%nat 1%nat (VNum 0) (VNum 1) (VNum 1) 4
         (two_nodes (0, 0) (4, 0)))
  = inl (TypeError "got an unexpected keyword argument").
Proof.
  apply (discretizateBar_raises midpoint_rule (two_nodes (0, 0) (4, 0)) 0%nat 1%nat
           (VNum 0) (VNum 1) (VNum 1) 4).
  lia.
Defined.

(** * Further properties of the module *)

(** ** Lengths and linear loads *)

Lemma norm2_nonneg (p q : R * R) : 0 <= norm2 p q.
Proof. unfold norm2. apply sqrt_pos. Qed.

Lemma norm2_sym (p q : R * R) : norm2 p q = norm2 q p.
Proof. unfold norm2. f_equal. ring. Qed.

Lemma norm2_zero_iff (p q : R * R) : norm2 p q = 0 <-> p = q.
Proof.
  unfold norm2. destruct p as [px py], q as [qx qy]. cbn [fst snd]. split.
  - intros H. rewrite <- !Rsqr_pow2 in H.
    apply sqrt_eq_0 in H;
      [| apply Rplus_le_le_0_compat; apply Rle_0_sqr].
    apply Rplus_sqr_eq_0 in H as [Hx Hy].
    f_equal; lra.
  - intros H. injection H as -> ->.
    replace ((qx - qx) ^ 2 + (qy - qy) ^ 2) with 0 by ring. apply sqrt_0.
Qed.

Lemma norm2_pos (p q : R * R) : p <> q -> 0 < norm2 p q.
Proof.
  intros Hne. destruct (norm2_nonneg p q) as [Hlt | Heq]; [exact Hlt |].
  symmetry in Heq. apply norm2_zero_iff in Heq. contradiction.
Qed.

(** X1. [calculateBarLength] returns a non-negative length that is zero
    exactly when the two nodes are at the same position, and the same length
    with the two node attributes exchanged. *)
Theorem calculateBarLength_metric (st : state) (l r : loc) :
  attrs st !! "left_node" = Some (VNode l) ->
  attrs st !! "right_node" = Some (VNode r) ->
  exists L : R,
    Bar.calculateBarLength st = (inr L, st) /\
    0 <= L /\
    (L = 0 <-> position (nodes st l) = position (nodes st r)) /\
    fst (Bar.calculateBarLength
           (with_attrs (<["left_node" := VNode r]> (<["right_node" := VNode l]> (attrs st))) st))
    = inr L.
Proof.
  intros Hl Hr. exists (bar_length st l r).
  split; [now apply calculateBarLength_run |].
  split; [apply norm2_nonneg |].
  split; [apply norm2_zero_iff |].
  rewrite (calculateBarLength_run _ r l) by lookup_attr.
  cbn [fst]. f_equal. apply norm2_sym.
Qed.

Lemma calculateBarLength_metric_witness :
  fst (Bar.calculateBarLength (bar_between (0, 0) (1, 0) 1 1 1)) = inr 1.
Proof.
  destruct (calculateBarLength_metric (bar_between (0, 0) (1, 0) 1 1 1) 0%nat 1%nat)
    as (L & Hrun & _ & _ & _); [bar_attr | bar_attr |].
  rewrite (calculateBarLength_run _ 0%nat 1%nat) in * by bar_attr.
  cbn [fst]. f_equal. apply bar_length_unit.
Defined.

(** X2. The load returned by [getLinearLoad] for nodes at distinct positions
    takes [start_value] at [x = 0] and [final_value] at [x = L], the distance
    of the nodes; it is affine in [x], and it does not depend on the order
    of the two nodes. *)
Theorem getLinearLoad_interpolates (start_value final_value : R) (left_node right_node : Node) :
  position left_node <> position right_node ->
  let L := norm2 (position left_node) (position right_node) in
  let q := getLinearLoad start_value final_value left_node right_node in
  q 0 = start_value /\
  q L = final_value /\
  (forall x y : R, q x - q y = (final_value - start_value) * (x - y) / L) /\
  (forall x : R, getLinearLoad start_value final_value right_node left_node x = q x).
Proof.
  intros Hne L q.
  assert (HL : L <> 0) by (apply Rgt_not_eq, norm2_pos, Hne).
  unfold q, getLinearLoad. fold L.
  split; [field; exact HL |].
  split; [field; exact HL |].
  split; [intros x y; field; exact HL |].
  intros x. rewrite (norm2_sym (position right_node)). reflexivity.
Qed.

Lemma getLinearLoad_interpolates_witness :
  getLinearLoad 2 5 (Node_new 0 0 0 0 false false) (Node_new 1 0 0 0 false false) 0 = 2.
Proof.
  apply (getLinearLoad_interpolates 2 5 (Node_new 0 0 0 0 false false)
           (Node_new 1 0 0 0 false false)).
  cbn. intros H. injection H as H. lra.
Defined.

(** ** Rotation matrices *)

Lemma cos2_sin2_sum (a : R) : cos a * cos a + sin a * sin a = 1.
Proof. pose proof (sin2_cos2 a) as H. unfold Rsqr in H. lra. Qed.

(** X3. The two matrices returned by [calculateRotationMatrix] are
    orthogonal: each of them times its transpose, computed by
    [rotateTensor], is the identity. *)
Theorem rotation_matrices_orthogonal (st : state) (angle : R) :
  attrs st !! "angle" = Some (VNum angle) ->
  exists R_6 R_3 : list (list R),
    Bar.calculateRotationMatrix st = (inr (R_6, R_3), st) /\
    rotateTensor R_3 (VMatrix (transpose R_3)) st = (inr (VMatrix (identity 3)), st) /\
    rotateTensor R_6 (VMatrix (transpose R_6)) st = (inr (VMatrix (identity 6)), st).
Proof.
  intros Ha. exists (rotation_6x6 angle), (rotation_3x3 angle).
  split; [now apply calculateRotationMatrix_run |].
  pose proof (cos2_sin2_sum angle) as Hcs.
  unfold rotation_6x6, rotation_3x3.
  generalize dependent (cos angle). generalize dependent (sin angle).
  intros s c Hcs.
  split; unfold rotateTensor; rewrite bool_decide_true by reflexivity;
    unfold ret; do 3 f_equal; cbn; entrywise ltac:(nra).
Qed.

Lemma rotation_matrices_orthogonal_witness :
  exists R_3 : list (list R),
    rotateTensor R_3 (VMatrix (transpose R_3)) (bar_between (0, 0) (1, 0) 1 1 1)
    = (inr (VMatrix (identity 3)), bar_between (0, 0) (1, 0) 1 1 1).
Proof.
  destruct (rotation_matrices_orthogonal (bar_between (0, 0) (1, 0) 1 1 1)
              (bar_angle (two_nodes (0, 0) (1, 0)) 0%nat 1%nat))
    as (R_6 & R_3 & _ & H3 & _); [bar_attr |].
  exists R_3. exact H3.
Defined.

(** X4. Rotating a 6-component element vector with the 6x6 matrix is
    rotating each node's triplet with the 3x3 matrix. *)
Theorem rotation_6x6_blockwise (st : state) (angle u0 u1 u2 v0 v1 v2 : R) :
  attrs st !! "angle" = Some (VNum angle) ->
  exists (R_6 R_3 : list (list R)) (u' v' : list R),
    Bar.calculateRotationMatrix st = (inr (R_6, R_3), st) /\
    rotateTensor R_3 (VArray [u0; u1; u2]) st = (inr (VArray u'), st) /\
    rotateTensor R_3 (VArray [v0; v1; v2]) st = (inr (VArray v'), st) /\
    rotateTensor R_6 (VArray [u0; u1; u2; v0; v1; v2]) st = (inr (VArray (u' ++ v')%list), st).
Proof.
  intros Ha.
  exists (rotation_6x6 angle), (rotation_3x3 angle),
         (map (fun row => dot row [u0; u1; u2]) (rotation_3x3 angle)),
         (map (fun row => dot row [v0; v1; v2]) (rotation_3x3 angle)).
  split; [now apply calculateRotationMatrix_run |].
  split; [reflexivity |]. split; [reflexivity |].
  unfold rotateTensor. rewrite bool_decide_true by reflexivity.
  unfold ret. do 3 f_equal. cbn. entrywise ltac:(ring).
Qed.

Lemma rotation_6x6_blockwise_witness :
  exists (R_6 : list (list R)) (w : list R),
    rotateTensor R_6 (VArray [1; 2; 3; 4; 5; 6]) (bar_between (0, 0) (1, 0) 1 1 1)
    = (inr (VArray w), bar_between (0, 0) (1, 0) 1 1 1).
Proof.
  destruct (rotation_6x6_blockwise (bar_between (0, 0) (1, 0) 1 1 1)
              (bar_angle (two_nodes (0, 0) (1, 0)) 0%nat 1%nat) 1 2 3 4 5 6)
    as (R_6 & R_3 & u' & v' & _ & _ & _ & H6); [bar_attr |].
  exists R_6, (u' ++ v')%list. exact H6.
Defined.

(** X5. Rotating a (force-x, force-y, moment) triplet with the 3x3 matrix
    keeps the magnitude of the force and the moment. *)
Theorem rotation_3x3_isometry (st : state) (angle fx fy m : R) :
  attrs st !! "angle" = Some (VNum angle) ->
  exists (R_6 R_3 : list (list R)) (gx gy : R),
    Bar.calculateRotationMatrix st = (inr (R_6, R_3), st) /\
    rotateTensor R_3 (VArray [fx; fy; m]) st = (inr (VArray [gx; gy; m]), st) /\
    gx ^ 2 + gy ^ 2 = fx ^ 2 + fy ^ 2.
Proof.
  intros Ha.
  exists (rotation_6x6 angle), (rotation_3x3 angle),
         (cos angle * fx - sin angle * fy), (sin angle * fx + cos angle * fy).
  split; [now apply calculateRotationMatrix_run |].
  split.
  - unfold rotateTensor. rewrite bool_decide_true by reflexivity.
    unfold ret. do 3 f_equal. cbn. entrywise ltac:(ring).
  - pose proof (cos2_sin2_sum angle) as Hcs.
    replace ((cos angle * fx - sin angle * fy) ^ 2 + (sin angle * fx + cos angle * fy) ^ 2)
      with ((cos angle * cos angle + sin angle * sin angle) * (fx ^ 2 + fy ^ 2)) by ring.
    rewrite Hcs. ring.
Qed.

Lemma rotation_3x3_isometry_witness :
  exists (R_3 : list (list R)) (gx gy : R),
    rotateTensor R_3 (VArray [3; 4; 7]) (bar_between (0, 0) (1, 0) 1 1 1)
    = (inr (VArray [gx; gy; 7]), bar_between (0, 0) (1, 0) 1 1 1) /\
    gx ^ 2 + gy ^ 2 = 3 ^ 2 + 4 ^ 2.
Proof.
  destruct (rotation_3x3_isometry (bar_between (0, 0) (1, 0) 1 1 1)
              (bar_angle (two_nodes (0, 0) (1, 0)) 0%nat 1%nat) 3 4 7)
    as (R_6 & R_3 & gx & gy & _ & Hr & Hn); [bar_attr |].
  exists R_3, gx, gy. split; [exact Hr | exact Hn].
Defined.

Lemma rotation_3x3_zero : rotation_3x3 0 = identity 3.
Proof. unfold rotation_3x3. rewrite cos_0, sin_0, Ropp_0. reflexivity. Qed.

Lemma rotation_6x6_zero : rotation_6x6 0 = identity 6.
Proof. unfold rotation_6x6. rewrite cos_0, sin_0, Ropp_0. reflexivity. Qed.

Lemma bar_angle_along_x (st : state) (l r : loc) :
  snd (position (nodes st r)) = snd (position (nodes st l)) ->
  fst (position (nodes st r)) <> fst (position (nodes st l)) ->
  bar_angle st l r = 0.
Proof.
  intros Hy Hx. unfold bar_angle. cbv zeta. rewrite Hy.
  destruct (Req_dec_T _ 0) as [H | _]; [lra |].
  replace (snd (position (nodes st l)) - snd (position (nodes st l))) with 0 by ring.
  unfold Rdiv. rewrite Rmult_0_l. apply atan_0.
Qed.

(** X6. For a bar along the global x axis, in either direction, the
    constructor stores the angle 0 and identity rotation matrices, and the
    stiffness matrix with [c = 1] and [s = 0]. *)
Theorem axis_aligned_bar_identity_rotation (st : state) (l r : loc) (E A I : R)
    (gqx lqx gqy lqy : value) :
  snd (position (nodes st r)) = snd (position (nodes st l)) ->
  fst (position (nodes st r)) <> fst (position (nodes st l)) ->
  let self := snd (Bar.init_fields (VNode l) (VNode r) (VNum E) (VNum A) (VNum I)
                     gqx lqx gqy lqy (with_attrs ∅ st)) in
  let L := bar_length st l r in
  attrs self !! "angle" = Some (VNum 0) /\
  attrs self !! "rotation_matrix_3x3" = Some (VMatrix (identity 3)) /\
  attrs self !! "rotation_matrix_6x6" = Some (VMatrix (identity 6)) /\
  attrs self !! "stiffness_matrix"
    = Some (VMatrix (frame_matrix (A * L ^ 2 / 2 * I) (2 * E * I / L ^ 3) L 1 0)).
Proof.
  intros Hy Hx self L. unfold self. rewrite init_fields_run. cbn [snd].
  pose proof (bar_angle_along_x st l r Hy Hx) as Ha.
  assert (HK : frame_matrix (A * L ^ 2 / 2 * I) (2 * E * I / L ^ 3) L 1 0
               = bar_stiffness E A I L 0)
    by (unfold bar_stiffness; now rewrite cos_0, sin_0).
  rewrite HK, <- rotation_3x3_zero, <- rotation_6x6_zero, <- Ha.
  repeat split; unfold init_dict; lookup_attr.
Qed.

Lemma axis_aligned_bar_identity_rotation_witness :
  attrs (snd (Bar.init_fields (VNode 0%nat) (VNode 1%nat) (VNum 1) (VNum 1) (VNum 1)
                zero_load zero_load zero_load zero_load
                (with_attrs ∅ (two_nodes (0, 0) (-1, 0))))) !! "rotation_matrix_3x3"
  = Some (VMatrix (identity 3)).
Proof.
  apply (axis_aligned_bar_identity_rotation (two_nodes (0, 0) (-1, 0)) 0%nat 1%nat 1 1 1
           zero_load zero_load zero_load zero_load).
  - reflexivity.
  - cbn. lra.
Defined.

Lemma bar_angle_vertical (st : state) (l r : loc) :
  fst (position (nodes st r)) = fst (position (nodes st l)) ->
  (snd (position (nodes st l)) < snd (position (nodes st r)) -> bar_angle st l r = PI / 2) /\
  (snd (position (nodes st r)) < snd (position (nodes st l)) -> bar_angle st l r = - (PI / 2)).
Proof.
  intros Hx. unfold bar_angle. cbv zeta. rewrite Hx.
  destruct (Req_dec_T _ 0) as [_ | H]; [| lra].
  split; intros Hy; destruct (Rgt_dec _ 0) as [Hg | Hn]; lra.
Qed.

(** X7. For a vertical bar the constructor's 3x3 matrix turns the local
    triplet by a quarter turn: [(fx, fy, m)] becomes [(-fy, fx, m)] when the
    right node is above the left node, and [(fy, -fx, m)] when it is below. *)
Theorem vertical_bar_quarter_turn (st : state) (l r : loc) (E A I fx fy m : R)
    (gqx lqx gqy lqy : value) :
  fst (position (nodes st r)) = fst (position (nodes st l)) ->
  let self := snd (Bar.init_fields (VNode l) (VNode r) (VNum E) (VNum A) (VNum I)
                     gqx lqx gqy lqy (with_attrs ∅ st)) in
  exists R_3 : list (list R),
    attrs self !! "rotation_matrix_3x3" = Some (VMatrix R_3) /\
    (snd (position (nodes st l)) < snd (position (nodes st r)) ->
       attrs self !! "angle" = Some (VNum (PI / 2)) /\
       rotateTensor R_3 (VArray [fx; fy; m]) self = (inr (VArray [- fy; fx; m]), self)) /\
    (snd (position (nodes st r)) < snd (position (nodes st l)) ->
       attrs self !! "angle" = Some (VNum (- (PI / 2))) /\
       rotateTensor R_3 (VArray [fx; fy; m]) self = (inr (VArray [fy; - fx; m]), self)).
Proof.
  intros Hx self. unfold self. rewrite init_fields_run. cbn [snd].
  destruct (bar_angle_vertical st l r Hx) as [Hup Hdown].
  exists (rotation_3x3 (bar_angle st l r)).
  split; [unfold init_dict; lookup_attr |].
  split; intros Hy.
  - rewrite (Hup Hy). split; [rewrite <- (Hup Hy); unfold init_dict; lookup_attr |].
    unfold rotateTensor, rotation_3x3. rewrite bool_decide_true by reflexivity.
    rewrite cos_PI2, sin_PI2.
    unfold ret. do 3 f_equal. cbn. entrywise ltac:(ring).
  - rewrite (Hdown Hy). split; [rewrite <- (Hdown Hy); unfold init_dict; lookup_attr |].
    unfold rotateTensor, rotation_3x3. rewrite bool_decide_true by reflexivity.
    rewrite cos_neg, sin_neg, cos_PI2, sin_PI2.
    unfold ret. do 3 f_equal. cbn. entrywise ltac:(ring).
Qed.

Lemma vertical_bar_quarter_turn_witness :
  attrs (snd (Bar.init_fields (VNode 0%nat) (VNode 1%nat) (VNum 1) (VNum 1) (VNum 1)
                zero_load zero_load zero_load zero_load
                (with_attrs ∅ (two_nodes (0, 0) (0, 2))))) !! "angle"
  = Some (VNum (PI / 2)).
Proof.
  destruct (vertical_bar_quarter_turn (two_nodes (0, 0) (0, 2)) 0%nat 1%nat 1 1 1 1 0 0
              zero_load zero_load zero_load zero_load) as (R_3 & _ & Hup & _).
  - reflexivity.
  - apply Hup. cbn. lra.
Defined.

(** ** Nodal forces *)

Lemma run_node_field {B} (n : string) (f : Node -> R) (l : loc) (k : R -> M B) (st : state) :
  attrs st !! n = Some (VNode l) ->
  bind (Bar.node_field n f) k st = k (f (nodes st l)) st.
Proof.
  intros H. unfold Bar.node_field.
  unfold bind at 1. rewrite (run_get_node n l) by assumption. reflexivity.
Qed.

(** X8. On an object with its two nodes and the 3x3 rotation matrix of an
    angle, [getNodesGlobalForces] returns for each node the 3x1 array of its
    local force pair rotated by the angle plus its global force pair, with
    the node's moment passed through unchanged; the object and the nodes are
    not modified. *)
Theorem getNodesGlobalForces_value (st : state) (l r : loc) (angle : R) :
  attrs st !! "left_node" = Some (VNode l) ->
  attrs st !! "right_node" = Some (VNode r) ->
  attrs st !! "rotation_matrix_3x3" = Some (VMatrix (rotation_3x3 angle)) ->
  let total (n : Node) :=
    VMatrix
      [ [cos angle * fst (local_forces n) - sin angle * snd (local_forces n)
           + fst (global_forces n)];
        [sin angle * fst (local_forces n) + cos angle * snd (local_forces n)
           + snd (global_forces n)];
        [momentum n] ] in
  Bar.getNodesGlobalForces st = (inr (total (nodes st l), total (nodes st r)), st).
Proof.
  intros Hl Hr HR total. unfold Bar.getNodesGlobalForces.
  do 5 (rewrite (run_node_field _ _ l) by assumption).
  do 5 (rewrite (run_node_field _ _ r) by assumption).
  rewrite (run_get_matrix _ (rotation_3x3 angle)) by assumption.
  unfold rotateTensor at 1. rewrite bool_decide_true by reflexivity. rewrite run_ret.
  unfold np_add at 1. rewrite run_ret.
  rewrite (run_get_matrix _ (rotation_3x3 angle)) by assumption.
  unfold rotateTensor at 1. rewrite bool_decide_true by reflexivity. rewrite run_ret.
  unfold np_add at 1. rewrite run_ret.
  unfold ret, total. do 2 f_equal.
  f_equal; f_equal; cbn; entrywise ltac:(ring).
Qed.

Lemma getNodesGlobalForces_value_witness :
  exists v : value * value,
    Bar.getNodesGlobalForces (bar_between (0, 0) (1, 0) 1 1 1)
    = (inr v, bar_between (0, 0) (1, 0) 1 1 1).
Proof.
  eexists.
  apply (getNodesGlobalForces_value (bar_between (0, 0) (1, 0) 1 1 1) 0%nat 1%nat
           (bar_angle (two_nodes (0, 0) (1, 0)) 0%nat 1%nat)); bar_attr.
Defined.

(** ** More on the stiffness matrix *)





Lemma frame_axial_term_pos (mu c s : R) :
  0 < mu -> c * c + s * s = 1 -> 0 < mu * c ^ 2 + 6 * s ^ 2.
Proof.
  intros Hmu Hcs.
  assert (Hc : 0 <= c * c) by nra. assert (Hs : 0 <= s * s) by nra.
  destruct (Rle_dec (c * c) (1 / 2)); nra.
Qed.

(** X10. For a bar with endpoints at distinct positions and positive [E],
    [A] and [I], every diagonal entry of the stored stiffness matrix is
    positive. *)
Theorem stiffness_diagonal_positive (st : state) (l r : loc) (E A I : R)
    (gqx lqx gqy lqy : value) :
  position (nodes st l) <> position (nodes st r) ->
  0 < E -> 0 < A -> 0 < I ->
  let self := snd (Bar.init_fields (VNode l) (VNode r) (VNum E) (VNum A) (VNum I)
                     gqx lqx gqy lqy (with_attrs ∅ st)) in
  exists K : list (list R),
    attrs self !! "stiffness_matrix" = Some (VMatrix K) /\
    forall i : nat, (i < 6)%nat -> 0 < entry K i i.
Proof.
  intros Hne HE HA HI self. unfold self. rewrite init_fields_run. cbn [snd].
  exists (bar_stiffness E A I (bar_length st l r) (bar_angle st l r)).
  split; [unfold init_dict; lookup_attr |].
  pose proof (norm2_pos _ _ Hne) as HL. fold (bar_length st l r) in HL.
  pose proof (cos2_sin2_sum (bar_angle st l r)) as Hcs.
  unfold bar_stiffness.
  generalize dependent (cos (bar_angle st l r)).
  generalize dependent (sin (bar_angle st l r)). intros s c Hcs.
  generalize dependent (bar_length st l r). intros L HL.
  assert (Hk : 0 < 2 * E * I / L ^ 3).
  { apply Rdiv_lt_0_compat; [nra | apply pow_lt; exact HL]. }
  assert (Hmu : 0 < A * L ^ 2 / 2 * I).
  { assert (H2 : 0 < L ^ 2) by (apply pow_lt; exact HL).
    assert (H3 : 0 < A * L ^ 2) by (apply Rmult_lt_0_compat; assumption).
    apply Rmult_lt_0_compat; [lra | exact HI]. }
  pose proof (frame_axial_term_pos _ c s Hmu Hcs) as H1.
  assert (Hcs' : s * s + c * c = 1) by lra.
  pose proof (frame_axial_term_pos _ s c Hmu Hcs') as H2.
  assert (HL2 : 0 < L ^ 2) by (apply pow_lt; exact HL).
  intros i Hi.
  do 6 (destruct i as [| i];
        [unfold entry; cbn [nth frame_matrix scale map];
         apply Rmult_lt_0_compat; [exact Hk | lra] |]).
  lia.
Qed.

Lemma stiffness_diagonal_positive_witness :
  exists K : list (list R),
    attrs (snd (Bar.init_fields (VNode 0%nat) (VNode 1%nat) (VNum 1) (VNum 1) (VNum 1)
                  zero_load zero_load zero_load zero_load
                  (with_attrs ∅ (two_nodes (0, 0) (1, 0))))) !! "stiffness_matrix"
    = Some (VMatrix K) /\ 0 < entry K 0 0.
Proof.
  destruct (stiffness_diagonal_positive (two_nodes (0, 0) (1, 0)) 0%nat 1%nat 1 1 1
              zero_load zero_load zero_load zero_load) as (K & HK & Hd).
  - cbn. intros H. injection H as H. lra.
  - lra.
  - lra.
  - lra.
  - exists K. split; [exact HK | apply Hd; lia].
Defined.

(** ** Recovery and accessors *)

(** X11. With positive [E], [A] and reference length, [setBarNormalAndStress]
    stores a positive stress and normal force when the bar is longer than its
    reference length (tension) and negative ones when it is shorter
    (compression). *)
Theorem stress_sign_follows_elongation (st : state) (l r : loc) (E A L0 : R) :
  attrs st !! "left_node" = Some (VNode l) ->
  attrs st !! "right_node" = Some (VNode r) ->
  attrs st !! "E" = Some (VNum E) ->
  attrs st !! "A" = Some (VNum A) ->
  attrs st !! "Li" = Some (VNum L0) ->
  0 < E -> 0 < A -> 0 < L0 ->
  let L := bar_length st l r in
  let st' := snd (Bar.setBarNormalAndStress st) in
  exists sigma N : R,
    attrs st' !! "sigma" = Some (VNum sigma) /\
    attrs st' !! "N" = Some (VNum N) /\
    (L0 < L -> 0 < sigma /\ 0 < N) /\
    (L < L0 -> sigma < 0 /\ N < 0).
Proof.
  intros Hl Hr HE HA HL0 HEp HAp HLp L st'.
  unfold st'. rewrite (setBarNormalAndStress_run st l r E A L0) by assumption.
  cbn [snd]. fold L.
  exists (E * (L - L0) / L0), (E * (L - L0) / L0 * A).
  split; [lookup_attr |]. split; [lookup_attr |].
  split; intros Hlt.
  - assert (Hs : 0 < E * (L - L0) / L0).
    { apply Rdiv_lt_0_compat; [apply Rmult_lt_0_compat; lra | exact HLp]. }
    split; [exact Hs | apply Rmult_lt_0_compat; assumption].
  - assert (Hs : 0 < E * (L0 - L) / L0).
    { apply Rdiv_lt_0_compat; [apply Rmult_lt_0_compat; lra | exact HLp]. }
    replace (E * (L - L0) / L0) with (- (E * (L0 - L) / L0)) by (field; lra).
    split; [lra |].
    assert (0 < E * (L0 - L) / L0 * A) by (apply Rmult_lt_0_compat; assumption).
    lra.
Qed.

Lemma stress_sign_follows_elongation_witness :
  exists sigma : R,
    attrs (snd (Bar.setBarNormalAndStress
                  (with_nodes (nodes (two_nodes (0, 0) (4, 0)))
                     (bar_between (0, 0) (1, 0) 2 3 1)))) !! "sigma"
    = Some (VNum sigma) /\ 0 < sigma.
Proof.
  destruct (stress_sign_follows_elongation
              (with_nodes (nodes (two_nodes (0, 0) (4, 0))) (bar_between (0, 0) (1, 0) 2 3 1))
              0%nat 1%nat 2 3 (bar_length (two_nodes (0, 0) (1, 0)) 0%nat 1%nat))
    as (sigma & N & Hs & _ & Hup & _).
  - unfold with_nodes. bar_attr.
  - unfold with_nodes. bar_attr.
  - unfold with_nodes. bar_attr.
  - unfold with_nodes. bar_attr.
  - unfold with_nodes. bar_attr.
  - lra.
  - lra.
  - rewrite bar_length_unit. lra.
  - exists sigma. split; [exact Hs |]. apply Hup.
    rewrite bar_length_unit. unfold bar_length, norm2. cbn.
    replace ((0 - 4) * ((0 - 4) * 1) + (0 - 0) * ((0 - 0) * 1)) with (Rsqr 4)
      by (unfold Rsqr; ring).
    rewrite sqrt_Rsqr; lra.
Defined.

(** X12. After [setBarNormalAndStress] the accessors report the recovered
    state: [getBarLength] returns what [calculateBarLength] computes,
    [getBarStress] returns [sigma] and [getBarNormal] returns [sigma A].
    They read stored values: if the nodes move afterwards, the three
    accessors still return the values of the last recovery. *)
Theorem accessors_report_last_recovery (st : state) (l r : loc) (E A L0 : R)
    (moved : loc -> Node) :
  attrs st !! "left_node" = Some (VNode l) ->
  attrs st !! "right_node" = Some (VNode r) ->
  attrs st !! "E" = Some (VNum E) ->
  attrs st !! "A" = Some (VNum A) ->
  attrs st !! "Li" = Some (VNum L0) ->
  let L := bar_length st l r in
  let sigma := E * (L - L0) / L0 in
  let st' := snd (Bar.setBarNormalAndStress st) in
  Bar.calculateBarLength st' = (inr L, st') /\
  Bar.getBarLength st' = (inr L, st') /\
  Bar.getBarStress st' = (inr (VNum sigma), st') /\
  Bar.getBarNormal st' = (inr (VNum (sigma * A)), st') /\
  fst (Bar.getBarLength (with_nodes moved st')) = inr L /\
  fst (Bar.getBarStress (with_nodes moved st')) = inr (VNum sigma) /\
  fst (Bar.getBarNormal (with_nodes moved st')) = inr (VNum (sigma * A)) /\
  fst (Bar.calculateBarLength (with_nodes moved st'))
    = inr (norm2 (position (moved l)) (position (moved r))).
Proof.
  intros Hl Hr HE HA HL0 L sigma st'.
  unfold st'. rewrite (setBarNormalAndStress_run st l r E A L0) by assumption.
  cbn [snd]. fold L. fold sigma.
  split; [rewrite (calculateBarLength_run _ l r) by lookup_attr; reflexivity |].
  split; [apply getBarLength_run; lookup_attr |].
  unfold Bar.getBarStress, Bar.getBarNormal, getattr.
  cbn [attrs with_attrs with_nodes].
  rewrite !(lookup_insert_ne _ "N" "sigma") by discriminate.
  rewrite !lookup_insert_eq.
  split; [reflexivity |]. split; [reflexivity |].
  split; [rewrite (getBarLength_run _ L) by (unfold with_nodes; lookup_attr); reflexivity |].
  split; [reflexivity |]. split; [reflexivity |].
  rewrite (calculateBarLength_run _ l r) by (unfold with_nodes; lookup_attr).
  reflexivity.
Qed.

Lemma accessors_report_last_recovery_witness :
  fst (Bar.getBarLength (snd (Bar.setBarNormalAndStress (bar_between (0, 0) (1, 0) 2 3 1))))
  = inr (bar_length (two_nodes (0, 0) (1, 0)) 0%nat 1%nat).
Proof.
  pose proof (accessors_report_last_recovery (bar_between (0, 0) (1, 0) 2 3 1)
                0%nat 1%nat 2 3 (bar_length (two_nodes (0, 0) (1, 0)) 0%nat 1%nat)
                (nodes (two_nodes (0, 0) (1, 0)))) as H.
  cbv zeta in H.
  destruct H as (_ & Hlen & _); [bar_attr | bar_attr | bar_attr | bar_attr | bar_attr |].
  rewrite Hlen. reflexivity.
Defined.

(** ** What never returns *)

Lemma fails_bind_l {A B} (m : M A) (k : A -> M B) : fails m -> fails (bind m k).
Proof.
  intros Hm st. destruct (Hm st) as (e & st' & H).
  exists e, st'. now apply run_bind_err.
Qed.

Lemma fails_bind_r {A B} (m : M A) (k : A -> M B) :
  (forall a, fails (k a)) -> fails (bind m k).
Proof.
  intros Hk st. unfold bind.
  destruct (m st) as [[e | a] st1]; [now exists e, st1 | apply Hk].
Qed.

Lemma fails_np_concatenate (arrays axis : value) : fails (np_concatenate arrays axis).
Proof. intros st. destruct axis; cbn; unfold raise; eauto. Qed.

Lemma calculateForceVector_fails (integrate : (R -> R) -> R -> R -> R) :
  fails (Bar.calculateForceVector integrate).
Proof.
  unfold Bar.calculateForceVector.
  repeat first
    [ apply fails_bind_l; apply fails_np_concatenate
    | apply fails_bind_r; intros ? ].
Qed.

(** X13. [calculateForceVector] raises on every object, whatever attributes
    it has and whatever the quadrature returns: past the integrals the call
    [np.concatenate(left, right)] passes an array where the axis is expected.
    No load vector is ever returned. *)
Theorem calculateForceVector_never_returns (integrate : (R -> R) -> R -> R -> R)
    (st : state) :
  exists e : exn, fst (Bar.calculateForceVector integrate st) = inl e.
Proof.
  destruct (calculateForceVector_fails integrate st) as (e & st' & H).
  exists e. now rewrite H.
Qed.

(** X14. [__init__] raises for all arguments, of any kind, and from any
    initial dictionary: either an assignment before the load vector raises,
    or the load vector does. *)
Theorem init_never_returns (integrate : (R -> R) -> R -> R -> R)
    (left_node right_node E A I gqx lqx gqy lqy : value) (st : state) :
  exists e : exn,
    fst (Bar.__init__ integrate left_node right_node E A I gqx lqx gqy lqy st) = inl e.
Proof.
  assert (H : fails (Bar.__init__ integrate left_node right_node E A I gqx lqx gqy lqy)).
  { unfold Bar.__init__. apply fails_bind_r. intros _.
    apply fails_bind_l. apply calculateForceVector_fails. }
  destruct (H st) as (e & st' & He). exists e. now rewrite He.
Qed.

(** ** More on the discretizer *)

Lemma discretizateBar_run (integrate : (R -> R) -> R -> R -> R) (st : state)
    (l r : loc) (q E A : value) (n : Z) :
  (1 <= n)%Z ->
  let lx := fst (position (nodes st l)) in
  let ly := snd (position (nodes st l)) in
  let dx := (fst (position (nodes st r)) - lx) / IZR n in
  let dy := (snd (position (nodes st r)) - ly) / IZR n in
  exists st1 : state,
    discretizateBar integrate l r q E A n st
    = (inl (TypeError "got an unexpected keyword argument"), st1) /\
    attrs st1 = attrs st /\
    (forall m : loc, (m < fresh st)%nat -> nodes st1 m = nodes st m) /\
    (forall k : nat, (k < Z.to_nat (n - 1))%nat ->
       nodes st1 (fresh st + k)%nat
       = Node_new (lx + IZR (1 + Z.of_nat k) * dx) (ly + IZR (1 + Z.of_nat k) * dy)
                  0 0 false false).
Proof.
  intros Hn lx ly dx dy. unfold discretizateBar.
  rewrite run_bind_ok with (a := nodes st l) (st' := st) by reflexivity.
  rewrite run_bind_ok with (a := nodes st r) (st' := st) by reflexivity.
  fold lx ly. fold dx dy.
  destruct (node_loop_run
              (fun i => Node_new (lx + IZR i * dx) (ly + IZR i * dy) 0 0 false false)
              (range 1 n) [] st) as (st1 & Hrun & _ & Ha & Hold & Hnew).
  erewrite run_bind_ok by exact Hrun.
  erewrite run_bind_err
    by (apply bar_loop_raises; [exact Hn |];
        cbn [app]; rewrite length_seq; unfold range; rewrite length_seqZ; lia).
  exists st1. split; [reflexivity |]. split; [exact Ha |]. split; [exact Hold |].
  intros k Hk. apply Hnew. unfold range. apply lookup_seqZ_lt. lia.
Qed.

(** X15. [discretizateBar] never returns a bar: for an element count of at
    least 1 it raises [TypeError], and for a count below 1 it returns an
    empty list of bars and an empty list of nodes. *)
Theorem discretizateBar_never_returns_a_bar (integrate : (R -> R) -> R -> R -> R)
    (st : state) (l r : loc) (q E A : value) (n : Z) :
  match fst (discretizateBar integrate l r q E A n st) with
  | inl e => (1 <= n)%Z /\ e = TypeError "got an unexpected keyword argument"
  | inr (bars, new_nodes) => (n <= 0)%Z /\ bars = [] /\ new_nodes = []
  end.
Proof.
  destruct (Z_le_gt_dec n 0) as [Hle | Hgt].
  - rewrite discretizateBar_nonpositive by exact Hle. cbn. auto.
  - destruct (discretizateBar_run integrate st l r q E A n) as (st1 & Hrun & _); [lia |].
    rewrite Hrun. cbn. split; [lia | reflexivity].
Qed.

(** X16. The nodes that [discretizateBar] creates for [n >= 2] elements
    before it raises subdivide the segment evenly: the first new node is one
    step [(dx, dy) = ((rx - lx) / n, (ry - ly) / n)] from the left node,
    consecutive new nodes are one step apart, and the right node is one step
    from the last new node.  The nodes that existed before the call,
    the two boundary nodes among them, are not modified, and the caller's
    object is not touched. *)
Theorem discretizateBar_even_chain (integrate : (R -> R) -> R -> R -> R) (st : state)
    (l r : loc) (q E A : value) (n : Z) :
  (2 <= n)%Z -> (l < fresh st)%nat -> (r < fresh st)%nat ->
  let st1 := snd (discretizateBar integrate l r q E A n st) in
  let pos (m : loc) := position (nodes st1 m) in
  let dx := (fst (position (nodes st r)) - fst (position (nodes st l))) / IZR n in
  let dy := (snd (position (nodes st r)) - snd (position (nodes st l))) / IZR n in
  let last := (fresh st + (Z.to_nat (n - 1) - 1))%nat in
  attrs st1 = attrs st /\
  (forall m : loc, (m < fresh st)%nat -> nodes st1 m = nodes st m) /\
  (fst (pos (fresh st)) - fst (pos l) = dx /\ snd (pos (fresh st)) - snd (pos l) = dy) /\
  (forall k : nat, (S k < Z.to_nat (n - 1))%nat ->
     fst (pos (fresh st + S k)%nat) - fst (pos (fresh st + k)%nat) = dx /\
     snd (pos (fresh st + S k)%nat) - snd (pos (fresh st + k)%nat) = dy) /\
  (fst (pos r) - fst (pos last) = dx /\ snd (pos r) - snd (pos last) = dy).
Proof.
  intros Hn Hl Hr st1 pos dx dy last.
  destruct (discretizateBar_run integrate st l r q E A n) as (s1 & Hrun & Ha & Hold & Hnew);
    [lia |].
  subst pos st1. cbv beta. rewrite Hrun. cbn [snd]. fold dx dy in Hnew.
  assert (Hn0 : IZR n <> 0) by (apply not_0_IZR; lia).
  assert (Hpos : forall k : nat, (k < Z.to_nat (n - 1))%nat ->
            position (nodes s1 (fresh st + k)%nat)
            = (fst (position (nodes st l)) + (1 + INR k) * dx,
               snd (position (nodes st l)) + (1 + INR k) * dy)).
  { intros k Hk. rewrite (Hnew k Hk). cbn [position Node_new].
    rewrite plus_IZR, <- INR_IZR_INZ. reflexivity. }
  rewrite (Hold l Hl), (Hold r Hr).
  split; [exact Ha |]. split; [exact Hold |].
  split; [| split].
  - replace (fresh st) with (fresh st + 0)%nat by lia.
    rewrite (Hpos 0%nat) by lia. cbn [fst snd INR]. split; ring.
  - intros k Hk. rewrite (Hpos (S k)) by lia. rewrite (Hpos k) by lia.
    cbn [fst snd]. rewrite S_INR. split; ring.
  - unfold last. rewrite (Hpos (Z.to_nat (n - 1) - 1)%nat) by lia.
    cbn [fst snd].
    assert (HI : 1 + INR (Z.to_nat (n - 1) - 1) = IZR n - 1).
    { rewrite INR_IZR_INZ, <- plus_IZR, <- minus_IZR. f_equal. lia. }
    rewrite HI. unfold dx, dy. split; field; exact Hn0.
Qed.

Lemma discretizateBar_even_chain_witness :
  attrs (snd (discretizateBar midpoint_rule 0%nat 1%nat (VNum 0) (VNum 1) (VNum 1) 4
                (two_nodes (0, 0) (4, 0))))
  = attrs (two_nodes (0, 0) (4, 0)).
Proof.
  apply (discretizateBar_even_chain midpoint_rule (two_nodes (0, 0) (4, 0)) 0%nat 1%nat
           (VNum 0) (VNum 1) (VNum 1) 4).
  - lia.
  - cbn. lia.
  - cbn. lia.
Defined.

(** ** Orientation and partial failure *)

Lemma bar_angle_swap (st : state) (l r : loc) :
  fst (position (nodes st r)) <> fst (position (nodes st l)) ->
  bar_angle st r l = bar_angle st l r.
Proof.
  intros Hx. unfold bar_angle. cbv zeta.
  destruct (Req_dec_T (fst (position (nodes st l)) - fst (position (nodes st r))) 0)
    as [H | H1]; [lra |].
  destruct (Req_dec_T (fst (position (nodes st r)) - fst (position (nodes st l))) 0)
    as [H | H2]; [lra |].
  f_equal. field. split; lra.
Qed.

(** X17. For a bar that is not vertical the constructor does not see the
    order of its nodes: built from right to left it stores the same length,
    the same angle and the same stiffness matrix as built from left to
    right. *)
Theorem constructor_ignores_orientation (st : state) (l r : loc) (E A I : R)
    (gqx lqx gqy lqy : value) :
  fst (position (nodes st r)) <> fst (position (nodes st l)) ->
  let forward := snd (Bar.init_fields (VNode l) (VNode r) (VNum E) (VNum A) (VNum I)
                        gqx lqx gqy lqy (with_attrs ∅ st)) in
  let backward := snd (Bar.init_fields (VNode r) (VNode l) (VNum E) (VNum A) (VNum I)
                         gqx lqx gqy lqy (with_attrs ∅ st)) in
  attrs backward !! "L" = attrs forward !! "L" /\
  attrs backward !! "angle" = attrs forward !! "angle" /\
  attrs backward !! "stiffness_matrix" = attrs forward !! "stiffness_matrix" /\
  attrs backward !! "rotation_matrix_6x6" = attrs forward !! "rotation_matrix_6x6".
Proof.
  intros Hx forward backward. unfold forward, backward.
  rewrite !init_fields_run. cbn [snd]. unfold init_dict.
  cbn [attrs with_attrs nodes fresh].
  assert (HL : bar_length (with_attrs ∅ st) r l = bar_length (with_attrs ∅ st) l r)
    by apply norm2_sym.
  rewrite HL, (bar_angle_swap (with_attrs ∅ st) l r Hx).
  repeat split;
    repeat (rewrite lookup_insert_ne by (intros ?; discriminate));
    now rewrite !lookup_insert_eq.
Qed.

Lemma constructor_ignores_orientation_witness :
  attrs (snd (Bar.init_fields (VNode 1%nat) (VNode 0%nat) (VNum 1) (VNum 1) (VNum 1)
                zero_load zero_load zero_load zero_load
                (with_attrs ∅ (two_nodes (0, 0) (1, 0))))) !! "angle"
  = attrs (snd (Bar.init_fields (VNode 0%nat) (VNode 1%nat) (VNum 1) (VNum 1) (VNum 1)
                  zero_load zero_load zero_load zero_load
                  (with_attrs ∅ (two_nodes (0, 0) (1, 0))))) !! "angle".
Proof.
  apply (constructor_ignores_orientation (two_nodes (0, 0) (1, 0)) 0%nat 1%nat 1 1 1
           zero_load zero_load zero_load zero_load).
  cbn. lra.
Defined.

(** X18. [setBarNormalAndStress] assigns [L] before it reads the reference
    length: on an object without [Li] it raises [AttributeError] for [Li]
    after [L] has been overwritten with the current length, and [sigma] and
    [N] keep whatever they had. *)
Theorem setBarNormalAndStress_partial_update (st : state) (l r : loc) (E : R) :
  attrs st !! "left_node" = Some (VNode l) ->
  attrs st !! "right_node" = Some (VNode r) ->
  attrs st !! "E" = Some (VNum E) ->
  attrs st !! "Li" = None ->
  let st' := snd (Bar.setBarNormalAndStress st) in
  fst (Bar.setBarNormalAndStress st) = inl (AttributeError "Li") /\
  attrs st' !! "L" = Some (VNum (bar_length st l r)) /\
  attrs st' !! "sigma" = attrs st !! "sigma" /\
  attrs st' !! "N" = attrs st !! "N".
Proof.
  intros Hl Hr HE HLi st'.
  assert (Hrun : Bar.setBarNormalAndStress st
                 = (inl (AttributeError "Li"),
                    with_attrs (<["L" := VNum (bar_length st l r)]> (attrs st)) st)).
  { unfold Bar.setBarNormalAndStress.
    erewrite run_bind_ok by (apply (calculateBarLength_run _ l r); assumption).
    rewrite run_setattr.
    rewrite (run_get_num _ E) by lookup_attr.
    rewrite (run_get_num _ (bar_length st l r)) by lookup_attr.
    apply run_bind_err. unfold get_num.
    apply run_getattr_None. lookup_attr. }
  unfold st'. rewrite Hrun. cbn [fst snd attrs with_attrs].
  split; [reflexivity |]. split; [apply lookup_insert_eq |].
  split; apply lookup_insert_ne; discriminate.
Qed.

Lemma setBarNormalAndStress_partial_update_witness :
  fst (Bar.setBarNormalAndStress
         (with_attrs (<["E" := VNum 1]> (<["right_node" := VNode 1%nat]>
                        (<["left_node" := VNode 0%nat]> ∅)))
            (two_nodes (0, 0) (1, 0))))
  = inl (AttributeError "Li").
Proof.
  apply (setBarNormalAndStress_partial_update
           (with_attrs (<["E" := VNum 1]> (<["right_node" := VNode 1%nat]>
                          (<["left_node" := VNode 0%nat]> ∅)))
              (two_nodes (0, 0) (1, 0))) 0%nat 1%nat 1); lookup_attr.
Defined.
